(** * The 6522 VIA register file and the supervisor of c64.go

    A shallow embedding of [via6522/via6522.go] and [go6502.go].

    - A Go [byte] is a [Z] in [0, 256); the one operation of the source
      that leaves that range, the complement [^ddr], has its wrap-around
      written out ([compl8]).
    - A [ParallelPeripheral] is a Go interface: the VIA holds references
      to objects it does not own.  Objects live in a store indexed by
      address, the VIA's two slices hold addresses, and every hook call
      goes through the store, so that one device attached twice is one
      object.
    - A Go function that may [panic] returns a [res]; the state reached
      before the panic is kept, as Go keeps it.
    - Everything the code does to the outside (text on standard output,
      hook calls on peripherals, calls to the collaborators of the
      supervisor) is appended to a log, oldest event first. *)

From Stdlib Require Import ZArith List String Ascii Bool Lia.
Import ListNotations.
Local Open Scope string_scope.
Local Open Scope Z_scope.

(** ** Bytes *)

Definition byte := Z.

Definition is_byte (b : Z) : Prop := 0 <= b < 256.

(** Go's [^b] on a [uint8]. *)
Definition compl8 (b : byte) : byte := Z.lnot b mod 2 ^ 8.

(** Go's [a + b] on a [uint8]. *)
Definition add8 (a b : byte) : byte := (a + b) mod 2 ^ 8.

(** ** The verbs of [fmt] the package uses *)

Definition digitChar (d : Z) : ascii :=
  if d <? 10 then ascii_of_nat (Z.to_nat (48 + d))
  else ascii_of_nat (Z.to_nat (65 + (d - 10))).

(** The [n] lowest digits of [v] in base [base], most significant first. *)
Fixpoint digits (base : Z) (n : nat) (v : Z) : string :=
  match n with
  | O => EmptyString
  | S n' => digits base n' (v / base) ++ String (digitChar (v mod base)) EmptyString
  end.

(** How many digits [v] takes in base [base] (at least one), for values
    below [base ^ fuel]. *)
Fixpoint width (base : Z) (fuel : nat) (v : Z) : nat :=
  match fuel with
  | O => 1%nat
  | S fuel' => if v <? base then 1%nat else S (width base fuel' (v / base))
  end.

(** [%08b] of a byte. *)
Definition fmt_08b (b : byte) : string := digits 2 8 b.

(** [%02X] of a byte. *)
Definition fmt_02X (b : byte) : string := digits 16 2 b.

(** [%X] of a [uint16]. *)
Definition fmt_X (a : Z) : string := digits 16 (width 16 3 a) a.

(** ** Results of functions that may panic *)

Inductive res (A : Type) : Type :=
| Ok (a : A)
| Panic (v : string).
Arguments Ok {A} a.
Arguments Panic {A} v.

(** How a call of a hook without result ends. *)
Inductive completion : Type :=
| Returns
| Panics (v : string).

(** ** Stateful computations that may panic *)

Section Monad.

Context {St : Type}.

Definition M (A : Type) : Type := St -> res A * St.

Definition ret {A} (a : A) : M A := fun w => (Ok a, w).

Definition bind {A B} (m : M A) (k : A -> M B) : M B :=
  fun w =>
    match m w with
    | (Ok a, w') => k a w'
    | (Panic v, w') => (Panic v, w')
    end.

Definition panic {A} (v : string) : M A := fun w => (Panic v, w).

End Monad.

Arguments M St A : clear implicits.

Notation "x <- m ;; k" := (bind m (fun x => k))
  (at level 61, m at next level, right associativity).
Notation "m ;;; k" := (bind m (fun _ => k))
  (at level 61, right associativity).

(** ** What the program does to the outside *)

(** Addresses of peripheral objects. *)
Definition addr := nat.

(** A method call on a peripheral, with what went in or came out. *)
Inductive call : Type :=
| CRead (r : byte)
| CWrite (b : byte)
| CShutdown (c : completion)
| CClose.

(** Calls of the supervisor to package go6502, [os/signal] and the
    processor. *)
Inductive extern : Type :=
| ParseOptions
| RomFromFile (path : string)
| NewSsd1306 (p : addr)
| CreateBus
| BusAttach (name : string) (base : Z)
| NewDebugger
| DebuggerQueueCommands (cmds : list string)
| CpuAttachDebugger
| CpuReset
| GoCpuLoop
| SignalNotify
| CpuString
| RamDump (file : string)
| DebuggerClose
| OsExit (code : Z).

Inductive event : Type :=
| Stdout (s : string)
| Called (p : addr) (c : call)
| Extern (c : extern).

(** The line feed of the format strings. *)
Definition nl : string := String (ascii_of_nat 10) EmptyString.

(** ** The peripheral interface *)

Module ParallelPeripheral.

(** [type ParallelPeripheral interface].  [P] is the type of the device
    states.  [PinMask] and [String] describe the device and are read off
    its state; [Read], [Write] and [Shutdown] act on it.  [Read] and
    [Write] are taken to return.  [Shutdown] has no result in the
    interface, so the one way it can fail is to panic, and the model keeps
    that outcome. *)
Class t (P : Type) : Type := {
  PinMask : P -> byte;
  Read : P -> byte * P;
  Shutdown : P -> completion * P;
  Write : byte -> P -> P;
  String : P -> string
}.

End ParallelPeripheral.

(** ** What the package takes from Go's [unicode] and [strconv] *)

(** [printAsciiByte] asks [unicode.IsPrint] and [unicode.IsSpace] about a
    rune, converts it with [string(r)] and quotes it with
    [strconv.QuoteRuneToASCII]; their tables are Go's.  A quoted rune
    stands between two quote marks, so the slice
    [charStr[1 : len(charStr)-1]] is within bounds. *)
Class GoText : Type := {
  IsPrint : Z -> bool;
  IsSpace : Z -> bool;
  runeString : Z -> string;
  QuoteRuneToASCII : Z -> string;
  QuoteRuneToASCII_length : forall r, (2 <= String.length (QuoteRuneToASCII r))%nat
}.

(** ** Package via6522 *)

Module Via6522.

Definition viaOrb : Z := 0x0.
Definition viaIrb : Z := 0x0.
Definition viaOra : Z := 0x1.
Definition viaIra : Z := 0x1.
Definition viaDdrb : Z := 0x2.
Definition viaDdra : Z := 0x3.
Definition viaPcrOffsetA : Z := 0.
Definition viaPcrOffsetB : Z := 4.

Record Options : Type := mkOptions {
  DumpBinary : bool;
  DumpAscii : bool
}.

Record Via6522 : Type := mkVia {
  ora : byte;
  orb : byte;
  ira : byte;
  irb : byte;
  ddra : byte;
  ddrb : byte;
  pcr : byte;
  options : Options;
  paPeripherals : list addr;
  pbPeripherals : list addr
}.

Definition set_ora (x : byte) (v : Via6522) : Via6522 :=
  mkVia x (orb v) (ira v) (irb v) (ddra v) (ddrb v) (pcr v) (options v)
        (paPeripherals v) (pbPeripherals v).

Definition set_orb (x : byte) (v : Via6522) : Via6522 :=
  mkVia (ora v) x (ira v) (irb v) (ddra v) (ddrb v) (pcr v) (options v)
        (paPeripherals v) (pbPeripherals v).

Definition set_ira (x : byte) (v : Via6522) : Via6522 :=
  mkVia (ora v) (orb v) x (irb v) (ddra v) (ddrb v) (pcr v) (options v)
        (paPeripherals v) (pbPeripherals v).

Definition set_irb (x : byte) (v : Via6522) : Via6522 :=
  mkVia (ora v) (orb v) (ira v) x (ddra v) (ddrb v) (pcr v) (options v)
        (paPeripherals v) (pbPeripherals v).

Definition set_ddra (x : byte) (v : Via6522) : Via6522 :=
  mkVia (ora v) (orb v) (ira v) (irb v) x (ddrb v) (pcr v) (options v)
        (paPeripherals v) (pbPeripherals v).

Definition set_ddrb (x : byte) (v : Via6522) : Via6522 :=
  mkVia (ora v) (orb v) (ira v) (irb v) (ddra v) x (pcr v) (options v)
        (paPeripherals v) (pbPeripherals v).

Definition set_pcr (x : byte) (v : Via6522) : Via6522 :=
  mkVia (ora v) (orb v) (ira v) (irb v) (ddra v) (ddrb v) x (options v)
        (paPeripherals v) (pbPeripherals v).

Definition set_paPeripherals (x : list addr) (v : Via6522) : Via6522 :=
  mkVia (ora v) (orb v) (ira v) (irb v) (ddra v) (ddrb v) (pcr v) (options v)
        x (pbPeripherals v).

Definition set_pbPeripherals (x : list addr) (v : Via6522) : Via6522 :=
  mkVia (ora v) (orb v) (ira v) (irb v) (ddra v) (ddrb v) (pcr v) (options v)
        (paPeripherals v) x.

Section WithPeripherals.

Context {P : Type} {PP : ParallelPeripheral.t P} {GT : GoText}.

Definition Heap : Type := addr -> P.

Definition upd (h : Heap) (a : addr) (s : P) : Heap :=
  fun a' => if Nat.eqb a' a then s else h a'.

Record World : Type := mkWorld {
  via : Via6522;
  heap : Heap;
  log : list event
}.

(** *** Access to the state *)

Definition getVia : M World Via6522 := fun w => (Ok (via w), w).

Definition modVia (f : Via6522 -> Via6522) : M World unit :=
  fun w => (Ok tt, mkWorld (f (via w)) (heap w) (log w)).

Definition emit (e : event) : M World unit :=
  fun w => (Ok tt, mkWorld (via w) (heap w) (log w ++ [e])).

Definition getObj (p : addr) : M World P := fun w => (Ok (heap w p), w).

Definition setObj (p : addr) (s : P) : M World unit :=
  fun w => (Ok tt, mkWorld (via w) (upd (heap w) p s) (log w)).

(** [for _, p := range ps { body }]. *)
Fixpoint forRange (ps : list addr) (body : addr -> M World unit) : M World unit :=
  match ps with
  | [] => ret tt
  | p :: ps' => body p ;;; forRange ps' body
  end.

(** *** Hook calls through the store *)

Definition callPinMask (p : addr) : M World byte :=
  s <- getObj p ;; ret (ParallelPeripheral.PinMask s).

Definition callString (p : addr) : M World string :=
  s <- getObj p ;; ret (ParallelPeripheral.String s).

Definition callRead (p : addr) : M World byte :=
  s <- getObj p ;;
  let (r, s') := ParallelPeripheral.Read s in
  setObj p s' ;;;
  emit (Called p (CRead r)) ;;;
  ret r.

Definition callWrite (p : addr) (b : byte) : M World unit :=
  s <- getObj p ;;
  setObj p (ParallelPeripheral.Write b s) ;;;
  emit (Called p (CWrite b)).

Definition callShutdown (p : addr) : M World unit :=
  s <- getObj p ;;
  let (c, s') := ParallelPeripheral.Shutdown s in
  setObj p s' ;;;
  emit (Called p (CShutdown c)) ;;;
  match c with
  | Returns => ret tt
  | Panics v => panic v
  end.

(** *** The functions of the package *)

Definition NewVia6522 (o : Options) : Via6522 :=
  mkVia 0 0 0 0 0 0 0 o [] [].

(** [func (via *Via6522) String() string] *)
Definition String : string := "VIA6522".

Definition AttachToPortA (p : addr) : M World unit :=
  m <- callPinMask p ;;
  name <- callString p ;;
  emit (Stdout (String ++ " PORTA attaching " ++ name
                ++ " (pinmask: " ++ fmt_08b m ++ ")" ++ nl)) ;;;
  modVia (fun v => set_paPeripherals (paPeripherals v ++ [p]) v).

Definition AttachToPortB (p : addr) : M World unit :=
  m <- callPinMask p ;;
  name <- callString p ;;
  emit (Stdout (String ++ " PORTB attaching " ++ name
                ++ " (pinmask: " ++ fmt_08b m ++ ")" ++ nl)) ;;;
  modVia (fun v => set_pbPeripherals (pbPeripherals v ++ [p]) v).

Definition Shutdown : M World unit :=
  v <- getVia ;;
  forRange (paPeripherals v) (fun p =>
    name <- callString p ;;
    emit (Stdout (String ++ " shutting down PORTA peripheral: " ++ name ++ nl)) ;;;
    callShutdown p) ;;;
  v <- getVia ;;
  forRange (pbPeripherals v) (fun p =>
    name <- callString p ;;
    emit (Stdout (String ++ " shutting down PORTB peripheral: " ++ name ++ nl)) ;;;
    callShutdown p).

Definition control1Mode (portOffset : Z) : M World byte :=
  v <- getVia ;; ret (Z.land (Z.shiftr (pcr v) portOffset) 1).

Definition control2Mode (portOffset : Z) : M World byte :=
  v <- getVia ;; ret (Z.land (Z.shiftr (pcr v) (add8 portOffset 1)) 0x7).

Definition printAsciiByte (b : byte) : M World unit :=
  let r := b in
  if IsPrint r || IsSpace r then
    emit (Stdout (runeString r))
  else
    let charStr := QuoteRuneToASCII r in
    emit (Stdout (substring 1 (String.length charStr - 1 - 1) charStr)).

Definition readMixedInputOutput (inp out ddr : byte) : byte :=
  Z.lor (Z.land out ddr) (Z.land inp (compl8 ddr)).

Definition Read (a : Z) : M World byte :=
  if a =? 0x0 then
    modVia (set_irb 0x00) ;;;
    v <- getVia ;;
    forRange (pbPeripherals v) (fun p =>
      r <- callRead p ;;
      m <- callPinMask p ;;
      modVia (fun v => set_irb (Z.lor (irb v) (Z.land r m)) v)) ;;;
    v <- getVia ;;
    ret (readMixedInputOutput (irb v) (orb v) (ddrb v))
  else if a =? 0x1 then
    modVia (set_ira 0x00) ;;;
    v <- getVia ;;
    forRange (paPeripherals v) (fun p =>
      r <- callRead p ;;
      m <- callPinMask p ;;
      modVia (fun v => set_ira (Z.lor (ira v) (Z.land r m)) v)) ;;;
    v <- getVia ;;
    ret (readMixedInputOutput (ira v) (ora v) (ddra v))
  else if a =? 0x2 then
    v <- getVia ;; ret (ddrb v)
  else if a =? 0x3 then
    v <- getVia ;; ret (ddra v)
  else if a =? 0xC then
    v <- getVia ;; ret (pcr v)
  else
    panic ("read from 0x" ++ fmt_X a ++ " not handled by Via6522").

Definition Reset : M World unit :=
  modVia (set_ora 0) ;;;
  modVia (set_orb 0) ;;;
  modVia (set_ira 0) ;;;
  modVia (set_irb 0) ;;;
  modVia (set_ddra 0) ;;;
  modVia (set_ddrb 0) ;;;
  modVia (set_pcr 0).

Definition Size : Z := 16.

Definition handleDataWrite (data : byte) (peripherals : list addr) : M World unit :=
  v <- getVia ;;
  (if DumpBinary (options v) then
     emit (Stdout ("VIA output: " ++ fmt_08b data ++ " (0x" ++ fmt_02X data ++ ")" ++ nl))
   else ret tt) ;;;
  (if DumpAscii (options v) then printAsciiByte data else ret tt) ;;;
  forRange peripherals (fun p =>
    m <- callPinMask p ;;
    callWrite p (Z.land data m)).

Definition Write (a : Z) (data : byte) : M World unit :=
  if a =? 0x0 then
    modVia (set_orb data) ;;;
    v <- getVia ;;
    handleDataWrite (Z.land data (ddrb v)) (pbPeripherals v)
  else if a =? 0x1 then
    modVia (set_ora data) ;;;
    v <- getVia ;;
    handleDataWrite (Z.land data (ddra v)) (paPeripherals v)
  else if a =? 0x2 then
    modVia (set_ddrb data)
  else if a =? 0x3 then
    modVia (set_ddra data)
  else if a =? 0xC then
    modVia (set_pcr data)
  else
    panic ("write to 0x" ++ fmt_X a ++ " not handled by Via6522").

End WithPeripherals.

End Via6522.

(** ** Package main: the supervisor

    [go6502.go] builds its VIA with [NewVia6522], attaches the display
    with [AttachToPortB] and resets it with [Reset]; these are the three
    functions of that name of package via6522 above.  The other
    collaborators (ROM, RAM, bus, processor, debugger, display, signals)
    are outside the repository: the model logs each call to them, and
    takes from a run what they hand back. *)

Module Main.

Definition kernalPath : string := "rom/kernal.rom".

(** What [go6502.ParseOptions] hands to the supervisor: the two switches
    [mainReturningStatus] reads, the debugger's queued commands, and the
    part [NewVia6522] keeps. *)
Record Options : Type := mkMainOptions {
  ViaSsd1306 : bool;
  Debug : bool;
  DebugCmds : list string;
  ViaOptions : Via6522.Options
}.

(** [signal.Notify(sigChan, os.Interrupt)] subscribes to one signal. *)
Inductive Signal : Type :=
| Interrupt.

Definition SignalString (s : Signal) : string :=
  match s with
  | Interrupt => "interrupt"
  end.

(** Which case of the [select] fires: a status read from [exitChan], or a
    signal read from [sigChan]. *)
Inductive selected : Type :=
| FromExitChan (exitStatus : Z)
| FromSigChan (sig : Signal).

(** A call registered with [defer]. *)
Inductive deferred : Type :=
| Ssd1306Close (p : addr)
| DebuggerCloseCall.

Section WithPeripherals.

Context {P : Type} {PP : ParallelPeripheral.t P}.

(** What one run of the supervisor meets: the parsed options, the error
    of [RomFromFile] if there is one, the display [NewSsd1306] builds
    (its address and first state), the case of the [select] that fires,
    and the text of the processor when it is printed. *)
Record Env : Type := mkEnv {
  parsed : Options;
  romError : option string;
  ssd1306 : addr;
  ssd1306State : P;
  fires : selected;
  cpuText : string
}.

(** The state of a running function: the world, and the calls deferred
    so far, the last one first. *)
Definition Frame : Type := (@Via6522.World P * list deferred)%type.

Definition inWorld {A} (m : M (@Via6522.World P) A) : M Frame A :=
  fun f =>
    let (r, w') := m (fst f) in (r, (w', snd f)).

Definition defer (c : deferred) : M Frame unit :=
  fun f => (Ok tt, (fst f, c :: snd f)).

Definition ext (c : extern) : M Frame unit :=
  inWorld (Via6522.emit (Extern c)).

Definition Println (s : string) : M Frame unit :=
  inWorld (Via6522.emit (Stdout (s ++ nl))).

Definition runDeferred (w : @Via6522.World P) (c : deferred) : @Via6522.World P :=
  match c with
  | Ssd1306Close p => snd (Via6522.emit (Called p CClose) w)
  | DebuggerCloseCall => snd (Via6522.emit (Extern DebuggerClose) w)
  end.

(** A function body with its deferred calls, which run when the body
    returns and when it panics, the last deferred first. *)
Definition func {A} (body : M Frame A) : M (@Via6522.World P) A :=
  fun w =>
    let (r, f) := body (w, []) in
    (r, fold_left runDeferred (snd f) (fst f)).

Definition mainReturningStatus (e : Env) : M (@Via6522.World P) Z :=
  func (
    ext ParseOptions ;;;
    let options := parsed e in
    ext (RomFromFile kernalPath) ;;;
    match romError e with
    | Some err => panic err
    | None => ret tt
    end ;;;
    inWorld (Via6522.modVia (fun _ => Via6522.NewVia6522 (ViaOptions options))) ;;;
    (if ViaSsd1306 options then
       ext (NewSsd1306 (ssd1306 e)) ;;;
       inWorld (Via6522.setObj (ssd1306 e) (ssd1306State e)) ;;;
       defer (Ssd1306Close (ssd1306 e)) ;;;
       inWorld (Via6522.AttachToPortB (ssd1306 e))
     else ret tt) ;;;
    inWorld Via6522.Reset ;;;
    ext CreateBus ;;;
    ext (BusAttach "ram" 0x0000) ;;;
    ext (BusAttach "VIA" 0xC000) ;;;
    ext (BusAttach "kernal" 0xE000) ;;;
    (if Debug options then
       ext NewDebugger ;;;
       defer DebuggerCloseCall ;;;
       ext (DebuggerQueueCommands (DebugCmds options)) ;;;
       ext CpuAttachDebugger
     else ret tt) ;;;
    ext CpuReset ;;;
    ext GoCpuLoop ;;;
    ext SignalNotify ;;;
    exitStatus <-
      match fires e with
      | FromExitChan exitStatus => ret exitStatus
      | FromSigChan sig =>
          Println (nl ++ "Got signal: " ++ SignalString sig) ;;;
          ret 1
      end ;;
    (if negb (exitStatus =? 0) then
       ext CpuString ;;;
       Println (cpuText e) ;;;
       Println "Dumping RAM into core file" ;;;
       ext (RamDump "core")
     else ret tt) ;;;
    ret exitStatus).

(** [func main]: [os.Exit(mainReturningStatus())].  The deferred calls of
    [mainReturningStatus] have run when [os.Exit] is reached; a panic does
    not reach it. *)
Definition main (e : Env) : M (@Via6522.World P) unit :=
  exitStatus <- mainReturningStatus e ;;
  Via6522.emit (Extern (OsExit exitStatus)).

End WithPeripherals.

End Main.

(** ** The processor's side of the VIA

    The processor reaches the VIA through the bus, as a memory: it reads
    and writes registers, one access after the other, until one of them
    panics. *)

Inductive access : Type :=
| Load (a : Z)
| Store (a : Z) (data : byte).

Section Accesses.

Context {P : Type} {PP : ParallelPeripheral.t P} {GT : GoText}.

Definition perform (x : access) : M (@Via6522.World P) unit :=
  match x with
  | Load a => Via6522.Read a ;;; ret tt
  | Store a data => Via6522.Write a data
  end.

Fixpoint performAll (xs : list access) : M (@Via6522.World P) unit :=
  match xs with
  | [] => ret tt
  | x :: xs' => perform x ;;; performAll xs'
  end.

End Accesses.

(** ** What the specification says, in its own words

    The lists the specification composes a read from and fans a write
    out to.  Peripherals are called one after the other, in attachment
    order, each on the state the calls before it left in the store. *)

Section SpecWords.

Context {P : Type} {PP : ParallelPeripheral.t P}.

(** What each attached peripheral contributes to a read of its port:
    [Read() & PinMask()]. *)
Fixpoint contributions (ps : list addr) (h : @Via6522.Heap P) : list byte :=
  match ps with
  | [] => []
  | p :: ps' =>
      let (r, s') := ParallelPeripheral.Read (h p) in
      Z.land r (ParallelPeripheral.PinMask s')
        :: contributions ps' (Via6522.upd h p s')
  end.

(** The bitwise OR of a list of bytes. *)
Definition orAll (bs : list byte) : byte := fold_right Z.lor 0 bs.

(** What each attached peripheral is handed when [data] is driven on its
    port: [data & PinMask()]. *)
Fixpoint deliveries (data : byte) (ps : list addr) (h : @Via6522.Heap P)
  : list (addr * byte) :=
  match ps with
  | [] => []
  | p :: ps' =>
      let b := Z.land data (ParallelPeripheral.PinMask (h p)) in
      (p, b) :: deliveries data ps' (Via6522.upd h p (ParallelPeripheral.Write b (h p)))
  end.

(** The store after that fan-out. *)
Fixpoint written (data : byte) (ps : list addr) (h : @Via6522.Heap P)
  : @Via6522.Heap P :=
  match ps with
  | [] => h
  | p :: ps' =>
      let b := Z.land data (ParallelPeripheral.PinMask (h p)) in
      written data ps' (Via6522.upd h p (ParallelPeripheral.Write b (h p)))
  end.

End SpecWords.

(** The phases of a run of the supervisor, as the specification lists
    them: the startup sequence, the termination race, the shutdown
    actions, and the release of what was acquired. *)

Section SupervisorWords.

Context {P : Type} {PP : ParallelPeripheral.t P}.

(** The status the race ends with: the one the processor published, or 1
    for the interrupt. *)
Definition status (e : @Main.Env P) : Z :=
  match Main.fires e with
  | Main.FromExitChan exitStatus => exitStatus
  | Main.FromSigChan _ => 1
  end.

Definition startup (e : @Main.Env P) : list event :=
  [Extern ParseOptions; Extern (RomFromFile Main.kernalPath)]
  ++ (if Main.ViaSsd1306 (Main.parsed e) then
        [Extern (NewSsd1306 (Main.ssd1306 e));
         Stdout ("VIA6522 PORTB attaching "
                 ++ ParallelPeripheral.String (Main.ssd1306State e)
                 ++ " (pinmask: "
                 ++ fmt_08b (ParallelPeripheral.PinMask (Main.ssd1306State e))
                 ++ ")" ++ nl)]
      else [])
  ++ [Extern CreateBus;
      Extern (BusAttach "ram" 0x0000);
      Extern (BusAttach "VIA" 0xC000);
      Extern (BusAttach "kernal" 0xE000)]
  ++ (if Main.Debug (Main.parsed e) then
        [Extern NewDebugger;
         Extern (DebuggerQueueCommands (Main.DebugCmds (Main.parsed e)));
         Extern CpuAttachDebugger]
      else [])
  ++ [Extern CpuReset; Extern GoCpuLoop; Extern SignalNotify].

Definition race (e : @Main.Env P) : list event :=
  match Main.fires e with
  | Main.FromExitChan _ => []
  | Main.FromSigChan sig =>
      [Stdout (nl ++ "Got signal: " ++ Main.SignalString sig ++ nl)]
  end.

Definition postMortem (e : @Main.Env P) : list event :=
  [Extern CpuString;
   Stdout (Main.cpuText e ++ nl);
   Stdout ("Dumping RAM into core file" ++ nl);
   Extern (RamDump "core")].

Definition teardown (e : @Main.Env P) : list event :=
  (if Main.Debug (Main.parsed e) then [Extern DebuggerClose] else [])
  ++ (if Main.ViaSsd1306 (Main.parsed e) then [Called (Main.ssd1306 e) CClose] else []).

End SupervisorWords.

(** ** Reading the log *)

(** What was logged between the world [w] and the later world [w']. *)
Definition since {P : Type} (w w' : @Via6522.World P) : list event :=
  skipn (List.length (Via6522.log w)) (Via6522.log w').

(** The shutdown hooks invoked, with how each ended. *)
Fixpoint shutdownCalls (l : list event) : list (addr * completion) :=
  match l with
  | [] => []
  | Called p (CShutdown c) :: l' => (p, c) :: shutdownCalls l'
  | _ :: l' => shutdownCalls l'
  end.

(** The peripherals whose [Close] was called. *)
Fixpoint closeCalls (l : list event) : list addr :=
  match l with
  | [] => []
  | Called p CClose :: l' => p :: closeCalls l'
  | _ :: l' => closeCalls l'
  end.

(** The post-mortem calls of the supervisor: the processor asked for its
    text, the RAM dumped to a file. *)
Fixpoint postMortemCalls (l : list event) : list extern :=
  match l with
  | [] => []
  | Extern CpuString :: l' => CpuString :: postMortemCalls l'
  | Extern (RamDump file) :: l' => RamDump file :: postMortemCalls l'
  | _ :: l' => postMortemCalls l'
  end.

(** Every method call on a peripheral. *)
Fixpoint hookCalls (l : list event) : list (addr * call) :=
  match l with
  | [] => []
  | Called p c :: l' => (p, c) :: hookCalls l'
  | _ :: l' => hookCalls l'
  end.

(** ** A device to run the model on *)

(** A probe: wired to the pins of [probeMask], driving [probePins],
    keeping what it is handed.  A probe with [probeFaulty] set panics in
    its shutdown hook. *)
Record Probe : Type := mkProbe {
  probeName : string;
  probeMask : byte;
  probePins : byte;
  probeFaulty : bool;
  probeSink : list byte;
  probeDown : bool
}.

#[export] Instance ProbePeripheral : ParallelPeripheral.t Probe := {
  PinMask p := probeMask p;
  Read p := (probePins p, p);
  Shutdown p :=
    if probeFaulty p then (Panics "probe: shutdown failed", p)
    else (Returns, mkProbe (probeName p) (probeMask p) (probePins p)
                           (probeFaulty p) (probeSink p) true);
  Write b p := mkProbe (probeName p) (probeMask p) (probePins p)
                       (probeFaulty p) (probeSink p ++ [b]) (probeDown p);
  String p := probeName p
}.

(** Go's tables on the runes [0] to [0xFF], the ones [rune(b)] of a
    [uint8] can be.  Standard output is a string of bytes. *)

(** [strconv]'s [lowerhex], by digit. *)
Definition lowerhex (d : Z) : ascii :=
  if d <? 10 then ascii_of_nat (Z.to_nat (48 + d))
  else ascii_of_nat (Z.to_nat (97 + (d - 10))).

Definition byteChar (b : Z) : ascii := ascii_of_nat (Z.to_nat b).

(** [unicode.IsPrint]: the graphic characters of ASCII with the space,
    and those of Latin-1 from [0xA1] on but for the soft hyphen. *)
Definition latin1IsPrint (r : Z) : bool :=
  ((0x20 <=? r) && (r <=? 0x7E))
  || ((0xA1 <=? r) && (r <=? 0xFF) && negb (r =? 0xAD)).

(** [unicode.IsSpace]: [\t], [\n], [\v], [\f], [\r], the space, NEL and
    the no-break space. *)
Definition latin1IsSpace (r : Z) : bool :=
  ((0x09 <=? r) && (r <=? 0x0D)) || (r =? 0x20) || (r =? 0x85) || (r =? 0xA0).

(** [string(r)], the UTF-8 encoding of [r]: one byte below [0x80], two
    bytes from there on. *)
Definition utf8 (r : Z) : string :=
  if r <? 0x80 then String (byteChar r) EmptyString
  else String (byteChar (Z.lor 0xC0 (Z.shiftr r 6)))
              (String (byteChar (Z.lor 0x80 (Z.land r 0x3F))) EmptyString).

(** [strconv]'s [appendEscapedRune] for the quote mark ['] and ASCII
    output: the quote mark and the backslash after a backslash, a
    printable ASCII rune as it is, the seven control characters that have
    a letter by that letter, the other control characters as [\x] and two
    hexadecimal digits, and the remaining runes as [\u] and four. *)
Definition escapedRune (r : Z) : string :=
  if (r =? 0x27) || (r =? 0x5C) then String "\" (String (byteChar r) EmptyString)
  else if (r <? 0x80) && latin1IsPrint r then String (byteChar r) EmptyString
  else if r =? 0x07 then "\a"
  else if r =? 0x08 then "\b"
  else if r =? 0x0C then "\f"
  else if r =? 0x0A then "\n"
  else if r =? 0x0D then "\r"
  else if r =? 0x09 then "\t"
  else if r =? 0x0B then "\v"
  else if (r <? 0x20) || (r =? 0x7F) then
    "\x" ++ String (lowerhex (Z.shiftr r 4))
                   (String (lowerhex (Z.land r 0xF)) EmptyString)
  else
    "\u" ++ String (lowerhex (Z.land (Z.shiftr r 12) 0xF))
           (String (lowerhex (Z.land (Z.shiftr r 8) 0xF))
           (String (lowerhex (Z.land (Z.shiftr r 4) 0xF))
           (String (lowerhex (Z.land r 0xF)) EmptyString))).

(** [strconv.QuoteRuneToASCII]: the escaped rune between two quote
    marks. *)
Definition quoteRuneToASCII (r : Z) : string :=
  String "'" (escapedRune r ++ String "'" EmptyString).

#[export] Instance Latin1Text : GoText := {
  IsPrint := latin1IsPrint;
  IsSpace := latin1IsSpace;
  runeString := utf8;
  QuoteRuneToASCII := quoteRuneToASCII;
  QuoteRuneToASCII_length := fun r =>
    ltac:(unfold quoteRuneToASCII; generalize (escapedRune r);
          intros s; destruct s; cbn; lia)
}.

(** A probe as it leaves the factory: nothing received, not shut down. *)
Definition probe (name : string) (mask pins : byte) (faulty : bool) : Probe :=
  mkProbe name mask pins faulty [] false.

(** A store with the probe [a] at address 0 and the probe [b] elsewhere. *)
Definition rack (a b : Probe) : @Via6522.Heap Probe :=
  fun p => match p with O => a | S _ => b end.

(** A VIA on the bench: registers at zero but for the two direction
    registers, diagnostics as asked, and nothing logged. *)
Definition bench (o : Via6522.Options) (ddra ddrb : byte) (pa pb : list addr)
           (h : @Via6522.Heap Probe) : @Via6522.World Probe :=
  Via6522.mkWorld (Via6522.mkVia 0 0 0 0 ddra ddrb 0 o pa pb) h [].

Definition quiet : Via6522.Options := Via6522.mkOptions false false.

Definition verbose : Via6522.Options := Via6522.mkOptions true true.

(** No peripheral attached. *)
Definition bareBench : @Via6522.World Probe :=
  bench quiet 0 0 [] [] (rack (probe "none" 0 0 false) (probe "none" 0 0 false)).

(** One probe on the low four pins of port B, every pin of the port an
    output, diagnostics on. *)
Definition lowNibbleBench : @Via6522.World Probe :=
  bench verbose 0 0xFF [] [0%nat]
        (rack (probe "low" 0x0F 0x05 false) (probe "none" 0 0 false)).

(** Port A: low four pins outputs, a probe on the high four pins that
    drives [0xA5]; ORA holds [0x3C]. *)
Definition mixedBench : @Via6522.World Probe :=
  Via6522.mkWorld
    (Via6522.mkVia 0x3C 0 0 0 0x0F 0 0 quiet [0%nat] [])
    (rack (probe "high" 0xF0 0xA5 false) (probe "none" 0 0 false)) [].

(** Two probes on port B, on the low and on the high four pins. *)
Definition sharedBench : @Via6522.World Probe :=
  bench quiet 0 0 [] [0%nat; 1%nat]
        (rack (probe "low" 0x0F 0x35 false) (probe "high" 0xF0 0xCA false)).

(** A probe on port A and one on port B, both sound. *)
Definition soundBench : @Via6522.World Probe :=
  bench quiet 0 0 [0%nat] [1%nat]
        (rack (probe "first" 0x0F 0 false) (probe "second" 0xF0 0 false)).

(** A probe on port A whose shutdown hook panics, a sound one on port B. *)
Definition faultyBench : @Via6522.World Probe :=
  bench quiet 0 0 [0%nat] [1%nat]
        (rack (probe "first" 0x0F 0 true) (probe "second" 0xF0 0 false)).

(** One sound probe attached to both ports. *)
Definition twiceBench : @Via6522.World Probe :=
  bench quiet 0 0 [0%nat] [0%nat]
        (rack (probe "both" 0xFF 0 false) (probe "none" 0 0 false)).

(** A run of the supervisor with a display and a debugger, ended by an
    interrupt. *)
Definition interruptedRun : @Main.Env Probe :=
  Main.mkEnv (Main.mkMainOptions true true ["run"] quiet) None 7%nat
             (probe "SSD1306" 0xFF 0 false) (Main.FromSigChan Main.Interrupt)
             "CPU".

(** A run with a display, ended by the processor with status [c]. *)
Definition exitedRun (c : Z) : @Main.Env Probe :=
  Main.mkEnv (Main.mkMainOptions true false [] quiet) None 7%nat
             (probe "SSD1306" 0xFF 0 false) (Main.FromExitChan c) "CPU".

(** ** More of the specification's words: a poll of a port *)

Section PollWords.

Context {P : Type} {PP : ParallelPeripheral.t P}.

(** What the [Read] of each attached peripheral returns, one after the
    other. *)
Fixpoint readings (ps : list addr) (h : @Via6522.Heap P) : list (addr * byte) :=
  match ps with
  | [] => []
  | p :: ps' =>
      let (r, s') := ParallelPeripheral.Read (h p) in
      (p, r) :: readings ps' (Via6522.upd h p s')
  end.

(** The store after these calls of [Read]. *)
Fixpoint polled (ps : list addr) (h : @Via6522.Heap P) : @Via6522.Heap P :=
  match ps with
  | [] => h
  | p :: ps' =>
      let (r, s') := ParallelPeripheral.Read (h p) in
      polled ps' (Via6522.upd h p s')
  end.

(** Whether the peripheral at [p] contributes a one on pin [n]: its
    [Read] has the bit and so has its pin mask. *)
Definition drives (h : @Via6522.Heap P) (n : Z) (p : addr) : bool :=
  let (r, s') := ParallelPeripheral.Read (h p) in
  Z.testbit r n && Z.testbit (ParallelPeripheral.PinMask s') n.

(** Whether the peripheral at [p] is wired to pin [n] when it is read. *)
Definition wired (h : @Via6522.Heap P) (n : Z) (p : addr) : bool :=
  Z.testbit (ParallelPeripheral.PinMask (snd (ParallelPeripheral.Read (h p)))) n.

End PollWords.

(** The text written to standard output, piece by piece. *)
Fixpoint stdout (l : list event) : list string :=
  match l with
  | [] => []
  | Stdout s :: l' => s :: stdout l'
  | _ :: l' => stdout l'
  end.

(** The calls of the supervisor to its collaborators. *)
Fixpoint externCalls (l : list event) : list extern :=
  match l with
  | [] => []
  | Extern c :: l' => c :: externCalls l'
  | _ :: l' => externCalls l'
  end.

(** A VIA with the peripheral control register at [0xB5]. *)
Definition pcrBench : @Via6522.World Probe :=
  Via6522.mkWorld
    (Via6522.mkVia 0 0 0 0 0 0 0xB5 quiet [] [])
    (rack (probe "none" 0 0 false) (probe "none" 0 0 false)) [].

(** Port B with the low four pins outputs and two probes, on the low and
    on the high four pins. *)
Definition halfBench : @Via6522.World Probe :=
  bench quiet 0 0x0F [] [0%nat; 1%nat]
        (rack (probe "low" 0x0F 0x35 false) (probe "high" 0xF0 0xCA false)).

(** A run whose ROM image cannot be read. *)
Definition brokenRun : @Main.Env Probe :=
  Main.mkEnv (Main.mkMainOptions true true ["run"] quiet)
             (Some "open rom/kernal.rom: no such file or directory") 7%nat
             (probe "SSD1306" 0xFF 0 false) (Main.FromExitChan 0) "CPU".

(** * Properties *)

Local Open Scope list_scope.

(** ** Bits of bytes *)

Lemma byte_high_bits (b : Z) (n : Z) :
  is_byte b -> 8 <= n -> Z.testbit b n = false.
Proof.
  intros Hb Hn.
  rewrite <- (Z.mod_small b (2 ^ 8)) by (unfold is_byte in Hb; lia).
  apply Z.mod_pow2_bits_high. lia.
Qed.

Lemma compl8_bits (d n : Z) :
  0 <= n -> Z.testbit (compl8 d) n = (n <? 8) && negb (Z.testbit d n).
Proof.
  intros Hn. unfold compl8.
  destruct (Z.ltb_spec n 8) as [Hlt | Hge].
  - rewrite Z.mod_pow2_bits_low by lia.
    rewrite Z.lnot_spec by lia. reflexivity.
  - rewrite Z.mod_pow2_bits_high by lia. reflexivity.
Qed.

Lemma land_is_byte (a b : Z) : is_byte a -> is_byte (Z.land a b).
Proof.
  unfold is_byte. intros Ha.
  destruct (Z.eq_dec a 0) as [-> | Hne].
  - rewrite Z.land_0_l. lia.
  - assert (Hb : forall n, 8 <= n -> Z.testbit (Z.land a b) n = false).
    { intros n Hn. rewrite Z.land_spec, (byte_high_bits a n); auto. }
    split.
    + apply Z.land_nonneg. left. lia.
    + destruct (Z.lt_ge_cases (Z.land a b) 256) as [Hlt | Hge]; [exact Hlt |].
      exfalso.
      assert (Hpos : 0 < Z.land a b) by lia.
      pose proof (Z.bit_log2 (Z.land a b) Hpos) as Hbit.
      assert (Hlog : 8 <= Z.log2 (Z.land a b)).
      { change 8 with (Z.log2 256). apply Z.log2_le_mono. lia. }
      rewrite Hb in Hbit by exact Hlog. discriminate.
Qed.

Lemma lor_is_byte (a b : Z) : is_byte a -> is_byte b -> is_byte (Z.lor a b).
Proof.
  unfold is_byte. intros Ha Hb.
  assert (Hn : 0 <= Z.lor a b) by (apply Z.lor_nonneg; lia).
  split; [exact Hn |].
  destruct (Z.lt_ge_cases (Z.lor a b) 256) as [Hlt | Hge]; [exact Hlt |].
  exfalso.
  assert (Hpos : 0 < Z.lor a b) by lia.
  pose proof (Z.bit_log2 (Z.lor a b) Hpos) as Hbit.
  assert (Hlog : 8 <= Z.log2 (Z.lor a b)).
  { change 8 with (Z.log2 256). apply Z.log2_le_mono. lia. }
  rewrite Z.lor_spec in Hbit.
  rewrite (byte_high_bits a), (byte_high_bits b) in Hbit by (unfold is_byte; auto).
  discriminate.
Qed.

Lemma readMixedInputOutput_bits (i o d n : Z) :
  is_byte i -> 0 <= n ->
  Z.testbit (Via6522.readMixedInputOutput i o d) n
  = if Z.testbit d n then Z.testbit o n else Z.testbit i n.
Proof.
  intros Hi Hn. unfold Via6522.readMixedInputOutput.
  rewrite Z.lor_spec, !Z.land_spec, compl8_bits by exact Hn.
  destruct (Z.ltb_spec n 8) as [Hlt | Hge].
  - destruct (Z.testbit d n), (Z.testbit o n), (Z.testbit i n); reflexivity.
  - rewrite (byte_high_bits i n Hi Hge).
    destruct (Z.testbit d n), (Z.testbit o n); reflexivity.
Qed.

(** The low eight bits of a mixed read, whatever the input holds above
    them. *)
Lemma readMixedInputOutput_low_bits (i o d n : Z) :
  0 <= n < 8 ->
  Z.testbit (Via6522.readMixedInputOutput i o d) n
  = if Z.testbit d n then Z.testbit o n else Z.testbit i n.
Proof.
  intros Hn. unfold Via6522.readMixedInputOutput.
  rewrite Z.lor_spec, !Z.land_spec, compl8_bits by lia.
  replace (n <? 8) with true by (symmetry; apply Z.ltb_lt; lia).
  destruct (Z.testbit d n), (Z.testbit o n), (Z.testbit i n); reflexivity.
Qed.

(** [^d] of a byte is [255 - d]. *)
Lemma compl8_of_byte (d : Z) : is_byte d -> compl8 d = 255 - d.
Proof.
  unfold is_byte, compl8. intros Hd.
  replace (Z.lnot d) with (255 - d + (-1) * 2 ^ 8) by (unfold Z.lnot; lia).
  rewrite Z.mod_add by lia. apply Z.mod_small. lia.
Qed.

Lemma compl8_is_byte (d : Z) : is_byte (compl8 d).
Proof.
  unfold is_byte, compl8. apply Z.mod_pos_bound. lia.
Qed.

(** A mixed read is a byte as soon as the output or the direction register
    holds one. *)
Lemma readMixedInputOutput_is_byte (i o d : Z) :
  is_byte o \/ is_byte d -> is_byte (Via6522.readMixedInputOutput i o d).
Proof.
  intros H. unfold Via6522.readMixedInputOutput.
  apply lor_is_byte.
  - destruct H as [Ho | Hd].
    + apply land_is_byte. exact Ho.
    + rewrite Z.land_comm. apply land_is_byte. exact Hd.
  - rewrite Z.land_comm. apply land_is_byte. apply compl8_is_byte.
Qed.

(** C1.  For bytes [i] (input), [o] (output register) and [d] (direction),
    the mixed read is [(o & d) | (i & ~d)]: bit by bit it is the bit of
    [o] where [d] has a one and the bit of [i] where [d] has a zero, and
    it is a byte.  With [d = 0x00] it is [i] whatever the output register
    holds; with [d = 0xFF] it is [o] whatever the input is. *)
Theorem readMixedInputOutput_formula (i o d : byte) :
  is_byte i -> is_byte o -> is_byte d ->
  Via6522.readMixedInputOutput i o d = Z.lor (Z.land o d) (Z.land i (Z.lnot d))
  /\ Via6522.readMixedInputOutput i o d = Z.lor (Z.land o d) (Z.land i (255 - d))
  /\ (forall n, 0 <= n ->
        Z.testbit (Via6522.readMixedInputOutput i o d) n
        = if Z.testbit d n then Z.testbit o n else Z.testbit i n)
  /\ is_byte (Via6522.readMixedInputOutput i o d)
  /\ (forall o', is_byte o' -> Via6522.readMixedInputOutput i o' 0x00 = i)
  /\ (forall i', is_byte i' -> Via6522.readMixedInputOutput i' o 0xFF = o).
Proof.
  intros Hi Ho Hd.
  assert (Hbits : forall n, 0 <= n ->
            Z.testbit (Via6522.readMixedInputOutput i o d) n
            = if Z.testbit d n then Z.testbit o n else Z.testbit i n)
    by (intros n Hn; apply readMixedInputOutput_bits; assumption).
  split; [| split; [| split; [| split; [| split]]]].
  - apply Z.bits_inj'. intros n Hn.
    rewrite Hbits by exact Hn.
    rewrite Z.lor_spec, !Z.land_spec, Z.lnot_spec by exact Hn.
    destruct (Z.testbit d n), (Z.testbit o n), (Z.testbit i n); reflexivity.
  - apply Z.bits_inj'. intros n Hn.
    rewrite Hbits by exact Hn.
    replace (255 - d) with (Z.lnot d mod 2 ^ 8).
    + fold (compl8 d).
      rewrite Z.lor_spec, !Z.land_spec, compl8_bits by exact Hn.
      destruct (Z.ltb_spec n 8) as [Hlt | Hge].
      * destruct (Z.testbit d n), (Z.testbit o n), (Z.testbit i n); reflexivity.
      * rewrite (byte_high_bits i n Hi Hge).
        destruct (Z.testbit d n), (Z.testbit o n); reflexivity.
    + unfold Z.lnot, is_byte in *. rewrite <- Z.sub_1_r.
      replace (- d - 1) with (255 - d + (-1) * 2 ^ 8) by lia.
      rewrite Z.mod_add by lia. apply Z.mod_small. lia.
  - exact Hbits.
  - unfold Via6522.readMixedInputOutput.
    apply lor_is_byte; apply land_is_byte; assumption.
  - intros o' Ho'. apply Z.bits_inj'. intros n Hn.
    rewrite readMixedInputOutput_bits by assumption.
    rewrite Z.bits_0. reflexivity.
  - intros i' Hi'. apply Z.bits_inj'. intros n Hn.
    rewrite readMixedInputOutput_bits by assumption.
    destruct (Z.ltb_spec n 8) as [Hlt | Hge].
    + change 0xFF with (Z.ones 8). rewrite Z.ones_spec_low by lia. reflexivity.
    + change 0xFF with (Z.ones 8). rewrite Z.ones_spec_high by lia.
      rewrite (byte_high_bits o n Ho Hge), (byte_high_bits i' n Hi' Hge).
      reflexivity.
Qed.

Lemma readMixedInputOutput_formula_witness :
  is_byte 0xA5 /\ is_byte 0x3C /\ is_byte 0x0F /\
  Via6522.readMixedInputOutput 0xA5 0x3C 0x0F
  = Z.lor (Z.land 0x3C 0x0F) (Z.land 0xA5 (Z.lnot 0x0F)).
Proof.
  assert (Hi : is_byte 0xA5) by (unfold is_byte; lia).
  assert (Ho : is_byte 0x3C) by (unfold is_byte; lia).
  assert (Hd : is_byte 0x0F) by (unfold is_byte; lia).
  split; [exact Hi |]. split; [exact Ho |]. split; [exact Hd |].
  exact (proj1 (readMixedInputOutput_formula 0xA5 0x3C 0x0F Hi Ho Hd)).
Defined.

Lemma eqb_false (a b : Z) : a <> b -> (a =? b) = false.
Proof.
  intros H. apply Z.eqb_neq. exact H.
Qed.

(** ** The bitwise OR of a list *)

Lemma fold_left_lor (bs : list byte) (a : byte) :
  fold_left Z.lor bs a = Z.lor a (orAll bs).
Proof.
  revert a. induction bs as [| b bs IH]; intros a; simpl.
  - rewrite Z.lor_0_r. reflexivity.
  - rewrite IH. rewrite Z.lor_assoc. reflexivity.
Qed.

Lemma orAll_bits (bs : list byte) (n : Z) :
  Z.testbit (orAll bs) n = existsb (fun b => Z.testbit b n) bs.
Proof.
  induction bs as [| b bs IH]; simpl.
  - apply Z.bits_0.
  - rewrite Z.lor_spec, IH. reflexivity.
Qed.

(** ** The log readers and concatenation *)

Lemma shutdownCalls_app (l1 l2 : list event) :
  shutdownCalls (l1 ++ l2) = shutdownCalls l1 ++ shutdownCalls l2.
Proof.
  induction l1 as [| e l1 IH]; simpl; [reflexivity |].
  destruct e as [s | p c | c]; try exact IH.
  destruct c; try exact IH. simpl. rewrite IH. reflexivity.
Qed.

Lemma closeCalls_app (l1 l2 : list event) :
  closeCalls (l1 ++ l2) = closeCalls l1 ++ closeCalls l2.
Proof.
  induction l1 as [| e l1 IH]; simpl; [reflexivity |].
  destruct e as [s | p c | c]; try exact IH.
  destruct c; try exact IH. simpl. rewrite IH. reflexivity.
Qed.

Lemma hookCalls_app (l1 l2 : list event) :
  hookCalls (l1 ++ l2) = hookCalls l1 ++ hookCalls l2.
Proof.
  induction l1 as [| e l1 IH]; simpl; [reflexivity |].
  destruct e as [s | p c | c]; try exact IH.
  simpl. rewrite IH. reflexivity.
Qed.

(** ** The register file *)

Module ViaFacts.

Import Via6522.

Section WithPeripherals.

Context {P : Type} {PP : ParallelPeripheral.t P} {GT : GoText}.

Local Abbreviation World := (@World P).

(** The two ports have the same code; their proofs are the same script. *)

Ltac poll_step :=
  unfold callRead, callPinMask, bind, getObj, setObj, emit, modVia, ret;
  match goal with
  | |- context [ParallelPeripheral.Read ?s] =>
      destruct (ParallelPeripheral.Read s) as [? ?]
  end;
  cbn [via heap log]; unfold upd at 1; rewrite Nat.eqb_refl; reflexivity.

Ltac poll_loop step :=
  let w := fresh "w" in
  let p := fresh "p" in
  let ps := fresh "ps" in
  let IH := fresh "IH" in
  intros ps; induction ps as [| p ps IH]; intros w;
  [ exists (heap w), []; cbn; unfold ret; rewrite app_nil_r;
    destruct w as [[] ? ?]; split; reflexivity
  | cbn [forRange contributions]; unfold bind at 1; cbv beta;
    rewrite step;
    let r := fresh "r" in
    let s' := fresh "s'" in
    destruct (ParallelPeripheral.Read (heap w p)) as [r s'];
    match goal with
    | |- context [forRange ps _ ?w1] =>
        let h' := fresh "h'" in
        let new := fresh "new" in
        let Heq := fresh "Heq" in
        let Hcalls := fresh "Hcalls" in
        destruct (IH w1) as (h' & new & Heq & Hcalls); rewrite Heq;
        cbn [via heap log irb set_irb ira set_ira];
        exists h', (Called p (CRead r) :: new);
        rewrite <- app_assoc; cbn [hookCalls map fst]; rewrite Hcalls;
        split; reflexivity
    end ].

(** One turn of the loop of [Read] over the peripherals of a port. *)
Lemma poll_portB_step (p : addr) (w : World) :
  (r <- callRead p ;;
   m <- callPinMask p ;;
   modVia (fun v => set_irb (Z.lor (irb v) (Z.land r m)) v)) w
  = let (r, s') := ParallelPeripheral.Read (heap w p) in
    (Ok tt,
     mkWorld (set_irb (Z.lor (irb (via w)) (Z.land r (ParallelPeripheral.PinMask s'))) (via w))
             (upd (heap w) p s') (log w ++ [Called p (CRead r)])).
Proof.
  poll_step.
Qed.

Lemma poll_portA_step (p : addr) (w : World) :
  (r <- callRead p ;;
   m <- callPinMask p ;;
   modVia (fun v => set_ira (Z.lor (ira v) (Z.land r m)) v)) w
  = let (r, s') := ParallelPeripheral.Read (heap w p) in
    (Ok tt,
     mkWorld (set_ira (Z.lor (ira (via w)) (Z.land r (ParallelPeripheral.PinMask s'))) (via w))
             (upd (heap w) p s') (log w ++ [Called p (CRead r)])).
Proof.
  poll_step.
Qed.

(** The loop of [Read] over the peripherals of a port: the input register
    takes the OR of what it held and of every contribution, the other
    fields of the VIA stay, and [Read] is called once on each peripheral
    of the list, in order. *)
Lemma poll_portB :
  forall (ps : list addr) (w : World),
  exists h' new,
    forRange ps (fun p =>
      r <- callRead p ;;
      m <- callPinMask p ;;
      modVia (fun v => set_irb (Z.lor (irb v) (Z.land r m)) v)) w
    = (Ok tt,
       mkWorld (set_irb (fold_left Z.lor (contributions ps (heap w)) (irb (via w))) (via w))
               h' (log w ++ new))
    /\ map fst (hookCalls new) = ps.
Proof.
  poll_loop poll_portB_step.
Qed.

Lemma poll_portA :
  forall (ps : list addr) (w : World),
  exists h' new,
    forRange ps (fun p =>
      r <- callRead p ;;
      m <- callPinMask p ;;
      modVia (fun v => set_ira (Z.lor (ira v) (Z.land r m)) v)) w
    = (Ok tt,
       mkWorld (set_ira (fold_left Z.lor (contributions ps (heap w)) (ira (via w))) (via w))
               h' (log w ++ new))
    /\ map fst (hookCalls new) = ps.
Proof.
  poll_loop poll_portA_step.
Qed.

Lemma since_app (w w' : World) (new : list event) :
  log w' = log w ++ new -> since w w' = new.
Proof.
  intros H. unfold since. rewrite H.
  rewrite skipn_app, skipn_all, Nat.sub_diag. reflexivity.
Qed.

Ltac read_port loop :=
  unfold Read; cbv beta iota delta [Z.eqb Pos.eqb];
  unfold bind at 1; unfold modVia at 1;
  unfold bind at 1; unfold getVia at 1;
  unfold bind at 1;
  cbn [via heap log pbPeripherals paPeripherals set_irb set_ira];
  match goal with
  | |- context [forRange ?ps _ ?w1] =>
      let h' := fresh "h'" in
      let new := fresh "new" in
      let Heq := fresh "Heq" in
      let Hcalls := fresh "Hcalls" in
      destruct (loop ps w1) as (h' & new & Heq & Hcalls); rewrite Heq;
      exists h', new; split; [| exact Hcalls];
      cbn [via heap log irb ira set_irb set_ira];
      rewrite fold_left_lor, Z.lor_0_l;
      unfold bind, getVia, ret; reflexivity
  end.

(** A read of the input register of a port. *)
Lemma Read_portB (w : World) :
  exists h' new,
    Read 0x0 w
    = (Ok (readMixedInputOutput (orAll (contributions (pbPeripherals (via w)) (heap w)))
                                (orb (via w)) (ddrb (via w))),
       mkWorld (set_irb (orAll (contributions (pbPeripherals (via w)) (heap w))) (via w))
               h' (log w ++ new))
    /\ map fst (hookCalls new) = pbPeripherals (via w).
Proof.
  read_port poll_portB.
Qed.

Lemma Read_portA (w : World) :
  exists h' new,
    Read 0x1 w
    = (Ok (readMixedInputOutput (orAll (contributions (paPeripherals (via w)) (heap w)))
                                (ora (via w)) (ddra (via w))),
       mkWorld (set_ira (orAll (contributions (paPeripherals (via w)) (heap w))) (via w))
               h' (log w ++ new))
    /\ map fst (hookCalls new) = paPeripherals (via w).
Proof.
  read_port poll_portA.
Qed.

(** *** The store *)

Lemma upd_same (h : @Heap P) (p : addr) (s : P) : upd h p s p = s.
Proof.
  unfold upd. rewrite Nat.eqb_refl. reflexivity.
Qed.

Lemma upd_other (h : @Heap P) (p q : addr) (s : P) : q <> p -> upd h p s q = h q.
Proof.
  intros Hne. unfold upd.
  destruct (Nat.eqb_spec q p) as [Heq | _]; [contradiction | reflexivity].
Qed.

Lemma upd_agree (h1 h2 : @Heap P) (p : addr) (s : P) (qs : list addr) :
  (forall q, In q qs -> h1 q = h2 q) ->
  forall q, In q qs -> upd h1 p s q = upd h2 p s q.
Proof.
  intros H q Hq. unfold upd.
  destruct (Nat.eqb q p); [reflexivity | exact (H q Hq)].
Qed.

(** *** Contributions of distinct peripherals *)

Lemma contributions_agree (ps : list addr) (h1 h2 : @Heap P) :
  (forall q, In q ps -> h1 q = h2 q) ->
  contributions ps h1 = contributions ps h2.
Proof.
  revert h1 h2. induction ps as [| p ps IH]; intros h1 h2 H; [reflexivity |].
  cbn [contributions]. rewrite (H p (or_introl eq_refl)).
  destruct (ParallelPeripheral.Read (h2 p)) as [r s'].
  f_equal. apply IH. apply upd_agree. intros q Hq. apply H. right. exact Hq.
Qed.

(** When no peripheral is attached twice, each contributes what its own
    [Read] returns, masked by its own [PinMask], whatever the others did. *)
Lemma contributions_distinct (ps : list addr) (h : @Heap P) :
  NoDup ps ->
  contributions ps h
  = map (fun p => let (r, s') := ParallelPeripheral.Read (h p) in
                  Z.land r (ParallelPeripheral.PinMask s')) ps.
Proof.
  intros Hnd. revert h. induction Hnd as [| p ps Hnotin Hnd IH]; intros h;
    [reflexivity |].
  cbn [contributions map].
  destruct (ParallelPeripheral.Read (h p)) as [r s'] eqn:Hr.
  f_equal. rewrite <- IH. apply contributions_agree.
  intros q Hq. apply upd_other. intros ->. contradiction.
Qed.

(** *** Deliveries *)

Lemma deliveries_fst (data : byte) (ps : list addr) (h : @Heap P) :
  map fst (deliveries data ps h) = ps.
Proof.
  revert h. induction ps as [| p ps IH]; intros h; [reflexivity |].
  cbn [deliveries map fst]. rewrite IH. reflexivity.
Qed.

Lemma deliveries_agree (data : byte) (ps : list addr) (h1 h2 : @Heap P) :
  (forall q, In q ps -> h1 q = h2 q) ->
  deliveries data ps h1 = deliveries data ps h2.
Proof.
  revert h1 h2. induction ps as [| p ps IH]; intros h1 h2 H; [reflexivity |].
  cbn [deliveries]. rewrite (H p (or_introl eq_refl)).
  f_equal. apply IH. apply upd_agree. intros q Hq. apply H. right. exact Hq.
Qed.

(** When no peripheral is attached twice, each is handed the data masked
    by the pin mask it had before the write. *)
Lemma deliveries_distinct (data : byte) (ps : list addr) (h : @Heap P) :
  NoDup ps ->
  deliveries data ps h
  = map (fun p => (p, Z.land data (ParallelPeripheral.PinMask (h p)))) ps.
Proof.
  intros Hnd. revert h. induction Hnd as [| p ps Hnotin Hnd IH]; intros h;
    [reflexivity |].
  cbn [deliveries map]. f_equal. rewrite <- IH. apply deliveries_agree.
  intros q Hq. apply upd_other. intros ->. contradiction.
Qed.

Lemma written_outside (data : byte) (ps : list addr) (h : @Heap P) (q : addr) :
  ~ In q ps -> written data ps h q = h q.
Proof.
  revert h. induction ps as [| p ps IH]; intros h Hq; [reflexivity |].
  cbn [written]. rewrite IH by (intros Hin; apply Hq; right; exact Hin).
  apply upd_other. intros ->. apply Hq. left. reflexivity.
Qed.

(** When no peripheral is attached twice, the store after the fan-out
    holds, for each attached peripheral, its state after one [Write]. *)
Lemma written_distinct (data : byte) (ps : list addr) (h : @Heap P) (q : addr) :
  NoDup ps -> In q ps ->
  written data ps h q
  = ParallelPeripheral.Write (Z.land data (ParallelPeripheral.PinMask (h q))) (h q).
Proof.
  intros Hnd. revert h. induction Hnd as [| p ps Hnotin Hnd IH]; intros h Hq;
    [destruct Hq |].
  cbn [written]. destruct Hq as [-> | Hq].
  - rewrite written_outside by exact Hnotin. apply upd_same.
  - rewrite IH by exact Hq.
    rewrite upd_other by (intros ->; contradiction). reflexivity.
Qed.

(** *** Writes *)

(** The loop of [handleDataWrite]. *)
Lemma fan_out (data : byte) (ps : list addr) (w : World) :
  forRange ps (fun p => m <- callPinMask p ;; callWrite p (Z.land data m)) w
  = (Ok tt,
     mkWorld (via w) (written data ps (heap w))
             (log w ++ map (fun d => Called (fst d) (CWrite (snd d)))
                           (deliveries data ps (heap w)))).
Proof.
  revert w. induction ps as [| p ps IH]; intros w.
  - cbn. unfold ret. rewrite app_nil_r. destruct w; reflexivity.
  - cbn [forRange deliveries written map fst snd].
    unfold bind at 1. cbv beta.
    unfold callPinMask, callWrite, bind at 1, getObj, setObj, emit, ret.
    unfold bind at 1. unfold bind at 1. unfold bind at 1.
    cbn [via heap log].
    rewrite IH. cbn [via heap log]. rewrite <- app_assoc. reflexivity.
Qed.

(** [printAsciiByte] prints and returns. *)
Lemma printAsciiByte_prints (b : byte) (w : World) :
  exists s, printAsciiByte b w = (Ok tt, mkWorld (via w) (heap w) (log w ++ [Stdout s])).
Proof.
  unfold printAsciiByte.
  destruct (IsPrint b || IsSpace b); eexists; unfold emit; reflexivity.
Qed.

(** [handleDataWrite] leaves the VIA as it is, prints its diagnostics,
    and then calls [Write] on each peripheral and nothing else. *)
Lemma handleDataWrite_fans_out (data : byte) (ps : list addr) (w : World) :
  exists out,
    handleDataWrite data ps w
    = (Ok tt,
       mkWorld (via w) (written data ps (heap w))
               (log w ++ out ++ map (fun d => Called (fst d) (CWrite (snd d)))
                                    (deliveries data ps (heap w))))
    /\ hookCalls out = [].
Proof.
  unfold handleDataWrite.
  unfold bind at 1. unfold getVia at 1.
  destruct (DumpBinary (options (via w))), (DumpAscii (options (via w))).
  - destruct (printAsciiByte_prints data
                (mkWorld (via w) (heap w) (log w ++ [Stdout ("VIA output: " ++ fmt_08b data ++ " (0x" ++ fmt_02X data ++ ")" ++ nl)%string])))
      as (s & Hs).
    eexists [Stdout _; Stdout s]. split; [| cbn [hookCalls]; reflexivity].
    unfold bind at 1. unfold emit at 1. unfold bind at 1.
    rewrite Hs. rewrite fan_out. cbn [via heap log].
    rewrite <- !app_assoc. reflexivity.
  - eexists [Stdout _]. split; [| cbn [hookCalls]; reflexivity].
    unfold bind at 1. unfold emit at 1. unfold bind at 1. unfold ret at 1.
    rewrite fan_out. cbn [via heap log].
    rewrite <- !app_assoc. reflexivity.
  - destruct (printAsciiByte_prints data w) as (s & Hs).
    eexists [Stdout s]. split; [| reflexivity].
    unfold bind at 1. unfold ret at 1. unfold bind at 1.
    rewrite Hs. rewrite fan_out. cbn [via heap log].
    rewrite <- !app_assoc. reflexivity.
  - exists []. split; [| reflexivity].
    unfold bind at 1. unfold ret at 1. unfold bind at 1. unfold ret at 1.
    rewrite fan_out. reflexivity.
Qed.

Ltac write_port :=
  unfold Write; cbv beta iota delta [Z.eqb Pos.eqb];
  unfold bind at 1; unfold modVia at 1;
  unfold bind at 1; unfold getVia at 1;
  cbn [via heap log ddra ddrb paPeripherals pbPeripherals set_ora set_orb];
  match goal with
  | |- context [handleDataWrite ?d ?ps ?w1] =>
      let out := fresh "out" in
      let Heq := fresh "Heq" in
      let Hout := fresh "Hout" in
      destruct (handleDataWrite_fans_out d ps w1) as (out & Heq & Hout);
      exists out; split; [| exact Hout]; rewrite Heq; reflexivity
  end.

(** A write of the output register of a port. *)
Lemma Write_portB (data : byte) (w : World) :
  exists out,
    Write 0x0 data w
    = (Ok tt,
       mkWorld (set_orb data (via w))
               (written (Z.land data (ddrb (via w))) (pbPeripherals (via w)) (heap w))
               (log w ++ out
                  ++ map (fun d => Called (fst d) (CWrite (snd d)))
                         (deliveries (Z.land data (ddrb (via w)))
                                     (pbPeripherals (via w)) (heap w))))
    /\ hookCalls out = [].
Proof.
  write_port.
Qed.

Lemma Write_portA (data : byte) (w : World) :
  exists out,
    Write 0x1 data w
    = (Ok tt,
       mkWorld (set_ora data (via w))
               (written (Z.land data (ddra (via w))) (paPeripherals (via w)) (heap w))
               (log w ++ out
                  ++ map (fun d => Called (fst d) (CWrite (snd d)))
                         (deliveries (Z.land data (ddra (via w)))
                                     (paPeripherals (via w)) (heap w))))
    /\ hookCalls out = [].
Proof.
  write_port.
Qed.

Lemma hookCalls_writes (ds : list (addr * byte)) :
  hookCalls (map (fun d => Called (fst d) (CWrite (snd d))) ds)
  = map (fun d => (fst d, CWrite (snd d))) ds.
Proof.
  induction ds as [| d ds IH]; [reflexivity |].
  cbn [map hookCalls]. rewrite IH. reflexivity.
Qed.

Lemma readMixedInputOutput_no_input (o d : byte) :
  readMixedInputOutput 0 o d = Z.land o d.
Proof.
  unfold readMixedInputOutput. rewrite Z.land_0_l, Z.lor_0_r. reflexivity.
Qed.

(** C2.  A read of register 0x0 (0x1) sets the input register of port B
    (port A) to the bitwise OR of [Read() & PinMask()] over the port's
    peripherals, taken afresh, and returns the mixed read of that input
    with the output and direction registers of the port.  With no
    peripheral on the port, a write of [o] to the output register followed
    by a read of the same address returns [o & d], where [d] is the
    direction register, also when [d] has just been written.  On a port
    of distinct peripherals each contribution is the peripheral's own
    [Read() & PinMask()].  The byte returned is [(OR & DDR) | (IR & (255 -
    DDR))] when the direction register holds a byte: each of its eight
    bits is the bit of the output register on an output pin and, on an
    input pin, set when some contribution has it set; it is a byte as
    soon as the output or the direction register holds one. *)
Theorem Read_recomposes_input (w : World) :
  let v := via w in
  let inB := orAll (contributions (pbPeripherals v) (heap w)) in
  let inA := orAll (contributions (paPeripherals v) (heap w)) in
  fst (Read 0x0 w) = Ok (readMixedInputOutput inB (orb v) (ddrb v))
  /\ irb (via (snd (Read 0x0 w))) = inB
  /\ fst (Read 0x1 w) = Ok (readMixedInputOutput inA (ora v) (ddra v))
  /\ ira (via (snd (Read 0x1 w))) = inA
  /\ (forall n, Z.testbit inB n
                = existsb (fun c => Z.testbit c n) (contributions (pbPeripherals v) (heap w)))
  /\ (forall n, Z.testbit inA n
                = existsb (fun c => Z.testbit c n) (contributions (paPeripherals v) (heap w)))
  /\ (forall o, pbPeripherals v = [] ->
        fst ((Write 0x0 o ;;; Read 0x0) w) = Ok (Z.land o (ddrb v)))
  /\ (forall o, paPeripherals v = [] ->
        fst ((Write 0x1 o ;;; Read 0x1) w) = Ok (Z.land o (ddra v)))
  /\ (forall o d, pbPeripherals v = [] ->
        fst ((Write 0x2 d ;;; Write 0x0 o ;;; Read 0x0) w) = Ok (Z.land o d))
  /\ (forall o d, paPeripherals v = [] ->
        fst ((Write 0x3 d ;;; Write 0x1 o ;;; Read 0x1) w) = Ok (Z.land o d))
  /\ (forall ps (h : @Heap P), NoDup ps ->
        contributions ps h
        = map (fun p => let (r, s') := ParallelPeripheral.Read (h p) in
                        Z.land r (ParallelPeripheral.PinMask s')) ps)
  /\ (is_byte (ddrb v) ->
        fst (Read 0x0 w)
        = Ok (Z.lor (Z.land (orb v) (ddrb v)) (Z.land inB (255 - ddrb v))))
  /\ (is_byte (ddra v) ->
        fst (Read 0x1 w)
        = Ok (Z.lor (Z.land (ora v) (ddra v)) (Z.land inA (255 - ddra v))))
  /\ (exists r, fst (Read 0x0 w) = Ok r
        /\ (forall n, 0 <= n < 8 ->
              Z.testbit r n
              = if Z.testbit (ddrb v) n then Z.testbit (orb v) n
                else existsb (fun c => Z.testbit c n)
                             (contributions (pbPeripherals v) (heap w)))
        /\ (is_byte (orb v) \/ is_byte (ddrb v) -> is_byte r))
  /\ (exists r, fst (Read 0x1 w) = Ok r
        /\ (forall n, 0 <= n < 8 ->
              Z.testbit r n
              = if Z.testbit (ddra v) n then Z.testbit (ora v) n
                else existsb (fun c => Z.testbit c n)
                             (contributions (paPeripherals v) (heap w)))
        /\ (is_byte (ora v) \/ is_byte (ddra v) -> is_byte r)).
Proof.
  cbv zeta.
  destruct (Read_portB w) as (hB & newB & HB & _).
  destruct (Read_portA w) as (hA & newA & HA & _).
  split; [rewrite HB; reflexivity |].
  split; [rewrite HB; reflexivity |].
  split; [rewrite HA; reflexivity |].
  split; [rewrite HA; reflexivity |].
  split; [intros n; apply orAll_bits |].
  split; [intros n; apply orAll_bits |].
  split; [| split; [| split; [| split; [| split; [| split; [| split; [| split]]]]]]];
    [| | | | intros ps h Hnd; apply contributions_distinct; exact Hnd
     | intros Hd; rewrite HB; cbn [fst]; unfold readMixedInputOutput;
       rewrite (compl8_of_byte _ Hd); reflexivity
     | intros Hd; rewrite HA; cbn [fst]; unfold readMixedInputOutput;
       rewrite (compl8_of_byte _ Hd); reflexivity
     | eexists; split; [rewrite HB; reflexivity |]; split;
       [ intros n Hn; rewrite readMixedInputOutput_low_bits by exact Hn;
         rewrite orAll_bits; reflexivity
       | apply readMixedInputOutput_is_byte ]
     | eexists; split; [rewrite HA; reflexivity |]; split;
       [ intros n Hn; rewrite readMixedInputOutput_low_bits by exact Hn;
         rewrite orAll_bits; reflexivity
       | apply readMixedInputOutput_is_byte ] ].
  - intros o Hnone. unfold bind.
    destruct (Write_portB o w) as (out & HW & _). rewrite HW.
    match goal with
    | |- context [Read 0x0 ?w1] =>
        destruct (Read_portB w1) as (h1 & new1 & HR & _); rewrite HR
    end.
    cbn [fst via heap pbPeripherals orb ddrb set_orb].
    rewrite Hnone. cbn [contributions orAll fold_right].
    rewrite readMixedInputOutput_no_input. reflexivity.
  - intros o Hnone. unfold bind.
    destruct (Write_portA o w) as (out & HW & _). rewrite HW.
    match goal with
    | |- context [Read 0x1 ?w1] =>
        destruct (Read_portA w1) as (h1 & new1 & HR & _); rewrite HR
    end.
    cbn [fst via heap paPeripherals ora ddra set_ora].
    rewrite Hnone. cbn [contributions orAll fold_right].
    rewrite readMixedInputOutput_no_input. reflexivity.
  - intros o d Hnone. unfold bind at 1.
    change (Write 0x2 d w) with (Ok tt, mkWorld (set_ddrb d (via w)) (heap w) (log w)).
    cbv iota. unfold bind.
    match goal with
    | |- context [Write 0x0 o ?w0] =>
        destruct (Write_portB o w0) as (out & HW & _); rewrite HW
    end.
    match goal with
    | |- context [Read 0x0 ?w1] =>
        destruct (Read_portB w1) as (h1 & new1 & HR & _); rewrite HR
    end.
    cbn [fst via heap pbPeripherals orb ddrb set_orb set_ddrb].
    rewrite Hnone. cbn [contributions orAll fold_right].
    rewrite readMixedInputOutput_no_input. reflexivity.
  - intros o d Hnone. unfold bind at 1.
    change (Write 0x3 d w) with (Ok tt, mkWorld (set_ddra d (via w)) (heap w) (log w)).
    cbv iota. unfold bind.
    match goal with
    | |- context [Write 0x1 o ?w0] =>
        destruct (Write_portA o w0) as (out & HW & _); rewrite HW
    end.
    match goal with
    | |- context [Read 0x1 ?w1] =>
        destruct (Read_portA w1) as (h1 & new1 & HR & _); rewrite HR
    end.
    cbn [fst via heap paPeripherals ora ddra set_ora set_ddra].
    rewrite Hnone. cbn [contributions orAll fold_right].
    rewrite readMixedInputOutput_no_input. reflexivity.
Qed.

(** C3.  A write of [data] to register 0x0 (0x1) returns, stores [data]
    in ORB (ORA) and changes no other register; of the methods that act
    on a peripheral it calls [Write] alone, once per peripheral attached
    to that port, in attachment order, each with [(data & DDR) & PinMask]
    of the peripheral it is called on, and the store holds their states
    after these calls.  On a port of distinct peripherals the pin masks are the
    ones the peripherals had before the write.  With [data = 0xFF], a
    direction register of [0xFF] and one peripheral of pin mask [0x0F] on
    the port, that peripheral is handed [0x0F].  Field by field: after the
    write ORB (ORA) holds [data], and ORA (ORB), IRA, IRB, DDRA, DDRB, PCR,
    the options and the two lists of peripherals are what they were. *)
Theorem Write_fans_out_masked (w : World) (data : byte) :
  let v := via w in
  let dB := Z.land data (ddrb v) in
  let dA := Z.land data (ddra v) in
  let wB := snd (Write 0x0 data w) in
  let wA := snd (Write 0x1 data w) in
  (fst (Write 0x0 data w) = Ok tt
   /\ via wB = set_orb data v
   /\ hookCalls (since w wB)
      = map (fun d => (fst d, CWrite (snd d))) (deliveries dB (pbPeripherals v) (heap w))
   /\ heap wB = written dB (pbPeripherals v) (heap w))
  /\ (fst (Write 0x1 data w) = Ok tt
      /\ via wA = set_ora data v
      /\ hookCalls (since w wA)
         = map (fun d => (fst d, CWrite (snd d))) (deliveries dA (paPeripherals v) (heap w))
      /\ heap wA = written dA (paPeripherals v) (heap w))
  /\ (forall d ps (h : @Heap P), map fst (deliveries d ps h) = ps)
  /\ (forall d ps (h : @Heap P), NoDup ps ->
        deliveries d ps h
        = map (fun p => (p, Z.land d (ParallelPeripheral.PinMask (h p)))) ps)
  /\ (forall d ps (h : @Heap P) p, NoDup ps -> In p ps ->
        written d ps h p
        = ParallelPeripheral.Write (Z.land d (ParallelPeripheral.PinMask (h p))) (h p))
  /\ (forall p, data = 0xFF -> ddrb v = 0xFF -> pbPeripherals v = [p] ->
        ParallelPeripheral.PinMask (heap w p) = 0x0F ->
        hookCalls (since w wB) = [(p, CWrite 0x0F)]
        /\ heap wB p = ParallelPeripheral.Write 0x0F (heap w p))
  /\ (forall p, data = 0xFF -> ddra v = 0xFF -> paPeripherals v = [p] ->
        ParallelPeripheral.PinMask (heap w p) = 0x0F ->
        hookCalls (since w wA) = [(p, CWrite 0x0F)]
        /\ heap wA p = ParallelPeripheral.Write 0x0F (heap w p))
  /\ (orb (via wB) = data
      /\ ora (via wB) = ora v /\ ira (via wB) = ira v /\ irb (via wB) = irb v
      /\ ddra (via wB) = ddra v /\ ddrb (via wB) = ddrb v /\ pcr (via wB) = pcr v
      /\ options (via wB) = options v
      /\ paPeripherals (via wB) = paPeripherals v
      /\ pbPeripherals (via wB) = pbPeripherals v)
  /\ (ora (via wA) = data
      /\ orb (via wA) = orb v /\ ira (via wA) = ira v /\ irb (via wA) = irb v
      /\ ddra (via wA) = ddra v /\ ddrb (via wA) = ddrb v /\ pcr (via wA) = pcr v
      /\ options (via wA) = options v
      /\ paPeripherals (via wA) = paPeripherals v
      /\ pbPeripherals (via wA) = pbPeripherals v).
Proof.
  cbv zeta.
  destruct (Write_portB data w) as (outB & HB & HoutB).
  destruct (Write_portA data w) as (outA & HA & HoutA).
  assert (HsB : hookCalls (since w (snd (Write 0x0 data w)))
                = map (fun d => (fst d, CWrite (snd d)))
                      (deliveries (Z.land data (ddrb (via w))) (pbPeripherals (via w)) (heap w))).
  { rewrite HB. cbn [snd]. erewrite since_app by reflexivity.
    rewrite hookCalls_app, HoutB, hookCalls_writes. reflexivity. }
  assert (HsA : hookCalls (since w (snd (Write 0x1 data w)))
                = map (fun d => (fst d, CWrite (snd d)))
                      (deliveries (Z.land data (ddra (via w))) (paPeripherals (via w)) (heap w))).
  { rewrite HA. cbn [snd]. erewrite since_app by reflexivity.
    rewrite hookCalls_app, HoutA, hookCalls_writes. reflexivity. }
  split.
  { split; [rewrite HB; reflexivity |].
    split; [rewrite HB; reflexivity |].
    split; [exact HsB | rewrite HB; reflexivity]. }
  split.
  { split; [rewrite HA; reflexivity |].
    split; [rewrite HA; reflexivity |].
    split; [exact HsA | rewrite HA; reflexivity]. }
  split; [intros d ps h; apply deliveries_fst |].
  split; [intros d ps h Hnd; apply deliveries_distinct; exact Hnd |].
  split; [intros d ps h p Hnd Hin; apply written_distinct; assumption |].
  split.
  { intros p Hdata Hddr Hps Hmask. split.
    + rewrite HsB, Hps, Hdata, Hddr. cbn [deliveries map fst snd].
      rewrite Hmask. reflexivity.
    + rewrite HB. cbn [snd heap]. rewrite Hps, Hdata, Hddr. cbn [written].
      rewrite upd_same, Hmask. reflexivity. }
  split; [| split].
  - intros p Hdata Hddr Hps Hmask. split.
    + rewrite HsA, Hps, Hdata, Hddr. cbn [deliveries map fst snd].
      rewrite Hmask. reflexivity.
    + rewrite HA. cbn [snd heap]. rewrite Hps, Hdata, Hddr. cbn [written].
      rewrite upd_same, Hmask. reflexivity.
  - rewrite HB. cbn [snd via]. unfold set_orb.
    cbn [ora orb ira irb ddra ddrb pcr options paPeripherals pbPeripherals].
    repeat split.
  - rewrite HA. cbn [snd via]. unfold set_ora.
    cbn [ora orb ira irb ddra ddrb pcr options paPeripherals pbPeripherals].
    repeat split.
Qed.

(** C4.  [Reset] returns and leaves ORA, ORB, IRA, IRB, DDRA, DDRB and
    PCR at zero; the two lists of attached peripherals, the options, the
    peripherals themselves and the log are as before the call. *)
Theorem Reset_zeroes_registers (w : World) :
  Reset w
  = (Ok tt,
     mkWorld (mkVia 0 0 0 0 0 0 0 (options (via w))
                    (paPeripherals (via w)) (pbPeripherals (via w)))
             (heap w) (log w))
  /\ paPeripherals (via (snd (Reset w))) = paPeripherals (via w)
  /\ pbPeripherals (via (snd (Reset w))) = pbPeripherals (via w).
Proof.
  split; [| split]; reflexivity.
Qed.

(** C5.  At every register address other than 0x0, 0x1, 0x2, 0x3 and 0xC
    a read panics and a write panics, each with the message that names
    the address; no register is stored, no peripheral is called and
    nothing is printed: the world is as before. *)
Theorem unhandled_register_panics (w : World) (a : Z) (data : byte) :
  a <> 0x0 -> a <> 0x1 -> a <> 0x2 -> a <> 0x3 -> a <> 0xC ->
  Read a w = (Panic ("read from 0x" ++ fmt_X a ++ " not handled by Via6522")%string, w)
  /\ Write a data w
     = (Panic ("write to 0x" ++ fmt_X a ++ " not handled by Via6522")%string, w).
Proof.
  intros H0 H1 H2 H3 HC. unfold Read, Write.
  rewrite (eqb_false a 0x0 H0), (eqb_false a 0x1 H1), (eqb_false a 0x2 H2),
    (eqb_false a 0x3 H3), (eqb_false a 0xC HC).
  split; reflexivity.
Qed.

(** C10.  A read of register 0x2, 0x3 or 0xC returns the register and
    leaves the world as it is.  A read of register 0x0 (0x1) changes, in
    the VIA, the input register IRB (IRA) alone: it becomes the OR of the
    contributions of the port's peripherals, not masked by the direction
    register; ORA, ORB, DDRA, DDRB, PCR, the other input register, the
    options and both lists of peripherals are as before. *)
Theorem Read_changes_input_register_only (w : World) :
  let v := via w in
  let vB := via (snd (Read 0x0 w)) in
  let vA := via (snd (Read 0x1 w)) in
  Read 0x2 w = (Ok (ddrb v), w)
  /\ Read 0x3 w = (Ok (ddra v), w)
  /\ Read 0xC w = (Ok (pcr v), w)
  /\ vB = set_irb (orAll (contributions (pbPeripherals v) (heap w))) v
  /\ vA = set_ira (orAll (contributions (paPeripherals v) (heap w))) v
  /\ (irb vB = orAll (contributions (pbPeripherals v) (heap w))
      /\ ora vB = ora v /\ orb vB = orb v /\ ira vB = ira v
      /\ ddra vB = ddra v /\ ddrb vB = ddrb v /\ pcr vB = pcr v
      /\ options vB = options v
      /\ paPeripherals vB = paPeripherals v /\ pbPeripherals vB = pbPeripherals v)
  /\ (ira vA = orAll (contributions (paPeripherals v) (heap w))
      /\ ora vA = ora v /\ orb vA = orb v /\ irb vA = irb v
      /\ ddra vA = ddra v /\ ddrb vA = ddrb v /\ pcr vA = pcr v
      /\ options vA = options v
      /\ paPeripherals vA = paPeripherals v /\ pbPeripherals vA = pbPeripherals v).
Proof.
  cbv zeta.
  destruct (Read_portB w) as (hB & newB & HB & _).
  destruct (Read_portA w) as (hA & newA & HA & _).
  split; [reflexivity |].
  split; [reflexivity |].
  split; [reflexivity |].
  rewrite HB, HA. cbn [snd via].
  repeat split.
Qed.

(** *** Attachments under bus accesses *)

(** No read and no write of a register, handled or not, changes the two
    lists of attached peripherals or the options. *)
Lemma Read_keeps_attachments (a : Z) (w : World) :
  paPeripherals (via (snd (Read a w))) = paPeripherals (via w)
  /\ pbPeripherals (via (snd (Read a w))) = pbPeripherals (via w)
  /\ options (via (snd (Read a w))) = options (via w).
Proof.
  destruct (Z.eq_dec a 0x0) as [-> | H0].
  { destruct (Read_portB w) as (h' & new & Heq & _). rewrite Heq.
    repeat split. }
  destruct (Z.eq_dec a 0x1) as [-> | H1].
  { destruct (Read_portA w) as (h' & new & Heq & _). rewrite Heq.
    repeat split. }
  unfold Read. rewrite (eqb_false a 0x0 H0), (eqb_false a 0x1 H1).
  destruct (a =? 0x2); [repeat split |].
  destruct (a =? 0x3); [repeat split |].
  destruct (a =? 0xC); repeat split.
Qed.

Lemma Write_keeps_attachments (a : Z) (data : byte) (w : World) :
  paPeripherals (via (snd (Write a data w))) = paPeripherals (via w)
  /\ pbPeripherals (via (snd (Write a data w))) = pbPeripherals (via w)
  /\ options (via (snd (Write a data w))) = options (via w).
Proof.
  destruct (Z.eq_dec a 0x0) as [-> | H0].
  { destruct (Write_portB data w) as (out & Heq & _). rewrite Heq.
    repeat split. }
  destruct (Z.eq_dec a 0x1) as [-> | H1].
  { destruct (Write_portA data w) as (out & Heq & _). rewrite Heq.
    repeat split. }
  unfold Write. rewrite (eqb_false a 0x0 H0), (eqb_false a 0x1 H1).
  destruct (a =? 0x2); [repeat split |].
  destruct (a =? 0x3); [repeat split |].
  destruct (a =? 0xC); repeat split.
Qed.

(** Whatever the processor does to the VIA through the bus, the
    peripherals attached stay attached and no other gets attached. *)
Lemma accesses_keep_attachments (xs : list access) (w : World) :
  paPeripherals (via (snd (performAll xs w))) = paPeripherals (via w)
  /\ pbPeripherals (via (snd (performAll xs w))) = pbPeripherals (via w)
  /\ options (via (snd (performAll xs w))) = options (via w).
Proof.
  revert w. induction xs as [| x xs IH]; intros w; [repeat split |].
  cbn [performAll]. unfold bind.
  assert (Hx : paPeripherals (via (snd (perform x w))) = paPeripherals (via w)
               /\ pbPeripherals (via (snd (perform x w))) = pbPeripherals (via w)
               /\ options (via (snd (perform x w))) = options (via w)).
  { destruct x as [a | a data]; cbn [perform].
    - unfold bind, ret. pose proof (Read_keeps_attachments a w) as H.
      destruct (Read a w) as [[b | v] w1]; exact H.
    - apply Write_keeps_attachments. }
  destruct (perform x w) as [[u | v] w1]; cbn [snd] in Hx.
  - destruct (IH w1) as (Ha & Hb & Ho), Hx as (Ha' & Hb' & Ho').
    rewrite Ha, Hb, Ho. repeat split; assumption.
  - exact Hx.
Qed.

(** *** Shutdown *)

Lemma forRange_cons (p : addr) (ps : list addr) (body : addr -> M World unit)
      (w : World) :
  forRange (p :: ps) body w
  = match body p w with
    | (Ok _, w') => forRange ps body w'
    | (Panic v, w') => (Panic v, w')
    end.
Proof.
  reflexivity.
Qed.

(** One turn of a loop of [Shutdown]; [label] is the text between the
    name of the VIA and the name of the peripheral. *)
Lemma shutdown_step (label : string) (p : addr) (w : World) :
  (name <- callString p ;;
   emit (Stdout (String ++ label ++ name ++ nl)%string) ;;;
   callShutdown p) w
  = let (c, s') := ParallelPeripheral.Shutdown (heap w p) in
    (match c with Returns => Ok tt | Panics v => Panic v end,
     mkWorld (via w) (upd (heap w) p s')
             (log w ++ [Stdout (String ++ label
                                  ++ ParallelPeripheral.String (heap w p) ++ nl)%string;
                        Called p (CShutdown c)])).
Proof.
  unfold callString, callShutdown, bind, getObj, setObj, emit, ret, panic.
  cbn [via heap log].
  destruct (ParallelPeripheral.Shutdown (heap w p)) as [c s'].
  cbn [via heap log]. rewrite <- app_assoc.
  destruct c; reflexivity.
Qed.

(** A loop of [Shutdown]: hooks are invoked along the list, one per
    entry, up to the first that panics. *)
Lemma shutdown_loop (label : string) (ps : list addr) (w : World) :
  exists r h' new k,
    forRange ps (fun p =>
      name <- callString p ;;
      emit (Stdout (String ++ label ++ name ++ nl)%string) ;;;
      callShutdown p) w
    = (r, mkWorld (via w) h' (log w ++ new))
    /\ (k <= List.length ps)%nat
    /\ map fst (shutdownCalls new) = firstn k ps
    /\ hookCalls new = map (fun pc => (fst pc, CShutdown (snd pc))) (shutdownCalls new)
    /\ (forall q, ~ In q ps -> h' q = heap w q)
    /\ match r with
       | Ok _ =>
           k = List.length ps
           /\ Forall (fun pc => snd pc = Returns) (shutdownCalls new)
       | Panic v =>
           exists before p,
             shutdownCalls new = before ++ [(p, Panics v)]
             /\ Forall (fun pc => snd pc = Returns) before
       end.
Proof.
  revert w. induction ps as [| p ps IH]; intros w.
  - exists (Ok tt), (heap w), [], 0%nat. cbn [forRange]. unfold ret.
    rewrite app_nil_r. destruct w as [v h l].
    repeat split; auto.
  - rewrite forRange_cons. cbv beta. rewrite shutdown_step.
    destruct (ParallelPeripheral.Shutdown (heap w p)) as [c s'].
    destruct c as [| v].
    + match goal with
      | |- context [forRange ps _ ?w1] =>
          destruct (IH w1) as (r & h' & new & k & Heq & Hk & Hfst & Hhooks & Hframe & Hr)
      end.
      rewrite Heq. cbn [via heap log] in *.
      eexists r, h', (_ :: _ :: new), (S k).
      split; [rewrite <- app_assoc; reflexivity |].
      split; [cbn [List.length]; lia |].
      split; [cbn [shutdownCalls map fst firstn]; rewrite Hfst; reflexivity |].
      split; [cbn [shutdownCalls hookCalls map fst snd]; rewrite Hhooks; reflexivity |].
      split.
      { intros q Hq. rewrite Hframe by (intros Hin; apply Hq; right; exact Hin).
        apply upd_other. intros ->. apply Hq. left. reflexivity. }
      destruct r as [u | v].
      * destruct Hr as [-> Hall]. split; [reflexivity |].
        cbn [shutdownCalls]. constructor; [reflexivity | exact Hall].
      * destruct Hr as (before & p' & Hcalls & Hall).
        exists ((p, Returns) :: before), p'.
        cbn [shutdownCalls]. rewrite Hcalls. split; [reflexivity |].
        constructor; [reflexivity | exact Hall].
    + eexists (Panic v), (upd (heap w) p s'), [_; _], 1%nat.
      split; [reflexivity |].
      split; [cbn [List.length]; lia |].
      split; [reflexivity |].
      split; [reflexivity |].
      split.
      { intros q Hq. apply upd_other. intros ->. apply Hq. left. reflexivity. }
      exists [], p. split; [reflexivity | constructor].
Qed.

(** A loop of [Shutdown] over distinct peripherals whose hooks return. *)
Lemma shutdown_loop_returns (label : string) (ps : list addr) (w : World) :
  NoDup ps ->
  Forall (fun p => fst (ParallelPeripheral.Shutdown (heap w p)) = Returns) ps ->
  fst (forRange ps (fun p =>
         name <- callString p ;;
         emit (Stdout (String ++ label ++ name ++ nl)%string) ;;;
         callShutdown p) w) = Ok tt.
Proof.
  intros Hnd. revert w. induction Hnd as [| p ps Hnotin Hnd IH]; intros w Hall;
    [reflexivity |].
  rewrite forRange_cons. cbv beta. rewrite shutdown_step.
  inversion Hall as [| p0 ps0 Hp Hps]; subst.
  destruct (ParallelPeripheral.Shutdown (heap w p)) as [c s'].
  cbn [fst] in Hp. subst c.
  apply IH. cbn [heap].
  apply Forall_forall. intros q Hq.
  rewrite upd_other by (intros ->; contradiction).
  rewrite Forall_forall in Hps. apply Hps. exact Hq.
Qed.

Lemma NoDup_app_apart (l1 l2 : list addr) (q : addr) :
  NoDup (l1 ++ l2) -> In q l2 -> ~ In q l1.
Proof.
  induction l1 as [| a l1 IH]; intros Hnd Hq2 Hq1; [destruct Hq1 |].
  cbn in Hnd. inversion Hnd as [| a0 l0 Hnotin Hnd']; subst.
  destruct Hq1 as [-> | Hq1].
  - apply Hnotin. apply in_or_app. right. exact Hq2.
  - exact (IH Hnd' Hq2 Hq1).
Qed.

Lemma Shutdown_unfold (w : World) :
  Shutdown w
  = match forRange (paPeripherals (via w)) (fun p =>
            name <- callString p ;;
            emit (Stdout (String ++ " shutting down PORTA peripheral: " ++ name ++ nl)%string) ;;;
            callShutdown p) w
    with
    | (Ok _, w1) =>
        forRange (pbPeripherals (via w1)) (fun p =>
          name <- callString p ;;
          emit (Stdout (String ++ " shutting down PORTB peripheral: " ++ name ++ nl)%string) ;;;
          callShutdown p) w1
    | (Panic v, w1) => (Panic v, w1)
    end.
Proof.
  reflexivity.
Qed.

(** C8, as the code has it.  [Shutdown] leaves the VIA as it is and, of
    the methods that act on a peripheral, calls the shutdown hook alone.
    The hooks are invoked
    along the list of the attachments of port A followed by those of
    port B, one call per attachment, up to the first hook that panics.
    When [Shutdown] returns, every attachment had its hook invoked and
    every hook returned; it returns whenever the attached peripherals are
    distinct and their hooks return.  When a hook panics, [Shutdown]
    panics with the same value, the hook that panicked is the last one
    invoked, and the hooks of the attachments after it are not invoked. *)
Theorem Shutdown_in_order_until_panic (w : World) :
  let ps := paPeripherals (via w) ++ pbPeripherals (via w) in
  let r := fst (Shutdown w) in
  let w' := snd (Shutdown w) in
  let calls := shutdownCalls (since w w') in
  via w' = via w
  /\ hookCalls (since w w') = map (fun pc => (fst pc, CShutdown (snd pc))) calls
  /\ (exists k, (k <= List.length ps)%nat /\ map fst calls = firstn k ps)
  /\ match r with
     | Ok _ => map fst calls = ps /\ Forall (fun pc => snd pc = Returns) calls
     | Panic v =>
         exists before p,
           calls = before ++ [(p, Panics v)]
           /\ Forall (fun pc => snd pc = Returns) before
           /\ (List.length calls <= List.length ps)%nat
           /\ map fst calls = firstn (List.length calls) ps
     end
  /\ (NoDup ps ->
      Forall (fun p => fst (ParallelPeripheral.Shutdown (heap w p)) = Returns) ps ->
      r = Ok tt).
Proof.
  cbv zeta. rewrite Shutdown_unfold.
  destruct (shutdown_loop " shutting down PORTA peripheral: " (paPeripherals (via w)) w)
    as (rA & hA & newA & kA & HeqA & HkA & HfstA & HhooksA & HframeA & HrA).
  pose proof (shutdown_loop_returns " shutting down PORTA peripheral: "
                (paPeripherals (via w)) w) as HretA.
  rewrite HeqA in *. destruct rA as [u | v].
  - (* port A went through *)
    destruct HrA as [-> HallA].
    rewrite firstn_all in HfstA.
    match goal with
    | |- context [forRange ?ps _ ?w1] =>
        destruct (shutdown_loop " shutting down PORTB peripheral: " ps w1)
          as (rB & hB & newB & kB & HeqB & HkB & HfstB & HhooksB & HframeB & HrB);
        pose proof (shutdown_loop_returns " shutting down PORTB peripheral: " ps w1)
          as HretB
    end.
    rewrite HeqB in *. cbn [fst snd via heap log] in *.
    rewrite (since_app w _ (newA ++ newB)) by (cbn [log]; apply eq_sym, app_assoc).
    rewrite shutdownCalls_app, hookCalls_app, !map_app, HfstA, HfstB, HhooksA, HhooksB.
    split; [reflexivity |].
    split; [reflexivity |].
    split.
    { exists (List.length (paPeripherals (via w)) + kB)%nat.
      split; [rewrite length_app; lia | rewrite firstn_app_2; reflexivity]. }
    split.
    + destruct rB as [u' | v].
      * destruct HrB as [-> HallB]. rewrite firstn_all.
        split; [reflexivity | apply Forall_app; split; assumption].
      * destruct HrB as (before & p & Hcalls & HallB).
        exists (shutdownCalls newA ++ before), p.
        split; [rewrite Hcalls, app_assoc; reflexivity |].
        split; [apply Forall_app; split; assumption |].
        assert (Hlen : List.length (shutdownCalls newA ++ shutdownCalls newB)
                       = (List.length (paPeripherals (via w)) + kB)%nat).
        { rewrite length_app.
          rewrite <- (length_map fst (shutdownCalls newA)), HfstA.
          rewrite <- (length_map fst (shutdownCalls newB)), HfstB.
          rewrite length_firstn. lia. }
        rewrite Hlen. split; [rewrite length_app; lia |].
        rewrite firstn_app_2. reflexivity.
    + intros Hnd Hall. apply Forall_app in Hall. destruct Hall as [HallPA HallPB].
      apply HretB.
      * exact (NoDup_app_remove_l _ _ Hnd).
      * apply Forall_forall. intros q Hq.
        rewrite HframeA by (exact (NoDup_app_apart _ _ q Hnd Hq)).
        rewrite Forall_forall in HallPB. exact (HallPB q Hq).
  - (* a hook of port A panicked *)
    destruct HrA as (before & p & Hcalls & Hall).
    cbn [fst snd via heap log] in *.
    rewrite (since_app w _ newA) by reflexivity.
    assert (Hpre : firstn kA (paPeripherals (via w) ++ pbPeripherals (via w))
                   = firstn kA (paPeripherals (via w))).
    { rewrite firstn_app.
      replace (kA - List.length (paPeripherals (via w)))%nat with 0%nat by lia.
      cbn [firstn]. apply app_nil_r. }
    assert (Hlen : List.length (shutdownCalls newA) = kA).
    { rewrite <- (length_map fst (shutdownCalls newA)), HfstA.
      rewrite length_firstn. lia. }
    split; [reflexivity |].
    split; [exact HhooksA |].
    split.
    { exists kA. split; [rewrite length_app; lia | rewrite Hpre; exact HfstA]. }
    split.
    + exists before, p. split; [exact Hcalls |]. split; [exact Hall |].
      rewrite Hlen. split; [rewrite length_app; lia | rewrite Hpre; exact HfstA].
    + intros Hnd HallP. apply Forall_app in HallP. destruct HallP as [HallPA _].
      specialize (HretA (NoDup_app_remove_r _ _ Hnd) HallPA).
      cbn [fst] in HretA. discriminate HretA.
Qed.

End WithPeripherals.

(** *** The theorems at work on the bench *)

(** DDRA written [0xFF], ORA written [0x3C], nothing attached: a read of
    register 0x1 returns [0x3C].  Low four pins of port A outputs, ORA at
    [0x3C], a probe on the high four pins driving [0xA5]: a read of
    register 0x1 returns [0xAC], the low half of ORA under the high half
    of the probe, and leaves [0xA0] in IRA. *)
Lemma Read_recomposes_input_witness :
  paPeripherals (via bareBench) = []
  /\ fst ((Write 0x3 0xFF ;;; Write 0x1 0x3C ;;; Read 0x1) bareBench) = Ok 0x3C
  /\ is_byte (ddra (via mixedBench))
  /\ fst (Read 0x1 mixedBench) = Ok 0xAC
  /\ ira (via (snd (Read 0x1 mixedBench))) = 0xA0.
Proof.
  assert (Hd : is_byte (ddra (via mixedBench))) by (unfold is_byte; cbn; lia).
  split; [reflexivity |].
  split.
  { destruct (Read_recomposes_input bareBench)
      as (_ & _ & _ & _ & _ & _ & _ & _ & _ & H & _).
    exact (H 0x3C 0xFF eq_refl). }
  split; [exact Hd |].
  destruct (Read_recomposes_input mixedBench)
    as (_ & _ & _ & Hin & _ & _ & _ & _ & _ & _ & _ & _ & H & _).
  split.
  - rewrite (H Hd). reflexivity.
  - rewrite Hin. reflexivity.
Defined.

(** [0xFF] written to port B, every pin an output, one probe on the low
    four pins: the probe is handed [0x0F], once, and ORB holds [0xFF]. *)
Lemma Write_fans_out_masked_witness :
  ddrb (via lowNibbleBench) = 0xFF
  /\ pbPeripherals (via lowNibbleBench) = [0%nat]
  /\ ParallelPeripheral.PinMask (heap lowNibbleBench 0%nat) = 0x0F
  /\ hookCalls (since lowNibbleBench (snd (Write 0x0 0xFF lowNibbleBench)))
     = [(0%nat, CWrite 0x0F)]
  /\ probeSink (heap (snd (Write 0x0 0xFF lowNibbleBench)) 0%nat) = [0x0F]
  /\ orb (via lowNibbleBench) = 0
  /\ orb (via (snd (Write 0x0 0xFF lowNibbleBench))) = 0xFF.
Proof.
  split; [reflexivity |]. split; [reflexivity |]. split; [reflexivity |].
  destruct (Write_fans_out_masked lowNibbleBench 0xFF)
    as (_ & _ & _ & _ & _ & H & _ & (Horb & _) & _).
  destruct (H 0%nat eq_refl eq_refl eq_refl eq_refl) as [Hcalls Hheap].
  split; [exact Hcalls |].
  split; [rewrite Hheap; reflexivity |].
  split; [reflexivity | exact Horb].
Defined.

(** Register 0xD is not handled. *)
Lemma unhandled_register_panics_witness :
  0xD <> 0x0 /\ 0xD <> 0x1 /\ 0xD <> 0x2 /\ 0xD <> 0x3 /\ 0xD <> 0xC
  /\ Read 0xD bareBench = (Panic "read from 0xD not handled by Via6522"%string, bareBench)
  /\ Write 0xD 0x55 bareBench
     = (Panic "write to 0xD not handled by Via6522"%string, bareBench).
Proof.
  assert (H0 : 0xD <> 0x0) by lia.
  assert (H1 : 0xD <> 0x1) by lia.
  assert (H2 : 0xD <> 0x2) by lia.
  assert (H3 : 0xD <> 0x3) by lia.
  assert (HC : 0xD <> 0xC) by lia.
  split; [exact H0 |]. split; [exact H1 |]. split; [exact H2 |].
  split; [exact H3 |]. split; [exact HC |].
  exact (unhandled_register_panics bareBench 0xD 0x55 H0 H1 H2 H3 HC).
Defined.

(** Two sound, distinct probes: [Shutdown] returns, and both hooks were
    invoked, port A first. *)
Lemma Shutdown_in_order_until_panic_witness :
  NoDup (paPeripherals (via soundBench) ++ pbPeripherals (via soundBench))
  /\ Forall (fun p => fst (ParallelPeripheral.Shutdown (heap soundBench p)) = Returns)
            (paPeripherals (via soundBench) ++ pbPeripherals (via soundBench))
  /\ fst (Shutdown soundBench) = Ok tt.
Proof.
  assert (Hnd : NoDup (paPeripherals (via soundBench) ++ pbPeripherals (via soundBench))).
  { cbn. constructor.
    - intros [H | []]. discriminate H.
    - constructor; [intros [] | constructor]. }
  assert (Hall : Forall (fun p => fst (ParallelPeripheral.Shutdown (heap soundBench p)) = Returns)
                        (paPeripherals (via soundBench) ++ pbPeripherals (via soundBench))).
  { cbn. constructor; [reflexivity |]. constructor; [reflexivity | constructor]. }
  split; [exact Hnd |]. split; [exact Hall |].
  destruct (Shutdown_in_order_until_panic soundBench) as (_ & _ & _ & _ & H).
  exact (H Hnd Hall).
Defined.

(** C8, as stated, fails: with a probe on port A whose shutdown hook
    panics and a sound probe on port B, [Shutdown] panics after the first
    hook; the probe of port B is attached, its hook is not invoked, and
    it is not shut down. *)
Lemma Shutdown_failure_skips_the_rest :
  paPeripherals (via faultyBench) ++ pbPeripherals (via faultyBench) = [0%nat; 1%nat]
  /\ fst (Shutdown faultyBench) = Panic "probe: shutdown failed"
  /\ shutdownCalls (since faultyBench (snd (Shutdown faultyBench)))
     = [(0%nat, Panics "probe: shutdown failed")]
  /\ probeDown (heap (snd (Shutdown faultyBench)) 1%nat) = false
  /\ ~ (forall p,
          In p (paPeripherals (via faultyBench) ++ pbPeripherals (via faultyBench)) ->
          exists c, In (p, c) (shutdownCalls (since faultyBench (snd (Shutdown faultyBench))))).
Proof.
  split; [reflexivity |]. split; [reflexivity |]. split; [reflexivity |].
  split; [reflexivity |].
  intros H. destruct (H 1%nat (or_intror (or_introl eq_refl))) as (c & Hc).
  vm_compute in Hc. destruct Hc as [Hc | []]. discriminate Hc.
Qed.

(** A peripheral attached to both ports has its hook invoked once per
    attachment. *)
Example Shutdown_once_per_attachment :
  shutdownCalls (since twiceBench (snd (Shutdown twiceBench)))
  = [(0%nat, Returns); (0%nat, Returns)].
Proof.
  reflexivity.
Qed.

(** The scenarios of the specification. *)

Example mixed_read_scenario : fst (Read 0x1 mixedBench) = Ok 0xAC.
Proof.
  reflexivity.
Qed.

Example shared_port_scenario : fst (Read 0x0 sharedBench) = Ok 0xC5.
Proof.
  reflexivity.
Qed.

End ViaFacts.

(** ** The supervisor *)

Module MainFacts.

Import Via6522 Main.

Section WithPeripherals.

Context {P : Type} {PP : ParallelPeripheral.t P}.

Local Abbreviation World := (@World P).

(** The status the [select] leaves in [exitStatus] is the one returned. *)
Lemma status_of_run (e : @Env P) (w : World) :
  romError e = None ->
  fst (mainReturningStatus e w) = Ok (status e).
Proof.
  destruct e as [[ssd dbg cmds vo] rom p s0 f txt]. cbn [romError].
  intros ->. unfold mainReturningStatus, func, status.
  cbn [parsed romError ViaSsd1306 Debug DebugCmds ViaOptions fires ssd1306
       ssd1306State cpuText].
  destruct ssd, dbg, f as [c | sig]; try destruct (c =? 0) eqn:E;
    cbn; rewrite ?E; reflexivity.
Qed.

(** A run of the supervisor whose ROM image loads, from a world where
    nothing has happened yet. *)
Lemma run_of_main (e : @Env P) (v0 : Via6522) (h0 : @Heap P) :
  romError e = None ->
  let run := mainReturningStatus e (mkWorld v0 h0 []) in
  fst run = Ok (status e)
  /\ via (snd run)
     = mkVia 0 0 0 0 0 0 0 (ViaOptions (parsed e)) []
             (if ViaSsd1306 (parsed e) then [ssd1306 e] else [])
  /\ log (snd run)
     = startup e ++ race e ++ (if status e =? 0 then [] else postMortem e) ++ teardown e.
Proof.
  destruct e as [[ssd dbg cmds vo] rom p s0 f txt]. cbn [romError].
  intros ->. cbv zeta.
  unfold mainReturningStatus, func, status, startup, race, postMortem, teardown.
  cbn [parsed romError ViaSsd1306 Debug DebugCmds ViaOptions fires ssd1306
       ssd1306State cpuText].
  destruct ssd, dbg, f as [c | sig]; try destruct (c =? 0) eqn:E;
    cbn; rewrite ?E; cbn; unfold upd; rewrite ?Nat.eqb_refl;
    repeat split; reflexivity.
Qed.

(** A run whose ROM image does not load panics with the error before
    anything is built. *)
Lemma run_without_rom (e : @Env P) (w : World) (err : string) :
  romError e = Some err ->
  mainReturningStatus e w
  = (Panic err,
     mkWorld (via w) (heap w)
             (log w ++ [Extern ParseOptions; Extern (RomFromFile kernalPath)])).
Proof.
  destruct e as [[ssd dbg cmds vo] rom p s0 f txt]. cbn [romError].
  intros ->. unfold mainReturningStatus, func. cbn.
  rewrite <- app_assoc. reflexivity.
Qed.

Lemma postMortemCalls_app (l1 l2 : list event) :
  postMortemCalls (l1 ++ l2) = postMortemCalls l1 ++ postMortemCalls l2.
Proof.
  induction l1 as [| ev l1 IH]; cbn [app postMortemCalls]; [reflexivity |].
  destruct ev as [s | p c | c]; try exact IH.
  destruct c; try exact IH; cbn [app]; rewrite IH; reflexivity.
Qed.

Lemma startup_no_post_mortem (e : @Env P) : postMortemCalls (startup e) = [].
Proof.
  unfold startup. destruct (ViaSsd1306 (parsed e)), (Debug (parsed e)); reflexivity.
Qed.

Lemma race_no_post_mortem (e : @Env P) : postMortemCalls (race e) = [].
Proof.
  unfold race. destruct (fires e); reflexivity.
Qed.

Lemma teardown_no_post_mortem (e : @Env P) : postMortemCalls (teardown e) = [].
Proof.
  unfold teardown. destruct (ViaSsd1306 (parsed e)), (Debug (parsed e)); reflexivity.
Qed.

(** C6.  When the ROM image loads, [mainReturningStatus] returns the
    status the processor published when the exit channel fires first,
    unchanged, and 1 when the signal channel fires first; hence it
    returns 0 exactly when the processor published 0.  That status is the
    one [main] hands to [os.Exit]. *)
Theorem exit_status_of_race (e : @Env P) (w : World) :
  romError e = None ->
  let result := fst (mainReturningStatus e w) in
  (forall exitStatus, fires e = FromExitChan exitStatus -> result = Ok exitStatus)
  /\ (forall sig, fires e = FromSigChan sig -> result = Ok 1)
  /\ (result = Ok 0 <-> fires e = FromExitChan 0)
  /\ (exists l, log (snd (main e w)) = l ++ [Extern (OsExit (status e))]).
Proof.
  intros Hrom. cbv zeta.
  pose proof (status_of_run e w Hrom) as Hst.
  split; [| split; [| split]].
  - intros c Hc. rewrite Hst. unfold status. rewrite Hc. reflexivity.
  - intros sig Hsig. rewrite Hst. unfold status. rewrite Hsig. reflexivity.
  - rewrite Hst. unfold status.
    destruct (fires e) as [c | sig]; split; intros H.
    + injection H as ->. reflexivity.
    + injection H as ->. reflexivity.
    + discriminate H.
    + discriminate H.
  - unfold main, bind.
    destruct (mainReturningStatus e w) as [r w1]. cbn [fst] in Hst. subst r.
    exists (log w1). reflexivity.
Qed.

(** C7.  When the ROM image loads, the log of a run is the startup
    sequence, the notice of the signal if one arrived, the post-mortem
    actions exactly when the exit status is not zero, and the deferred
    calls.  The post-mortem actions are: the processor's text asked for
    and printed, the notice of the dump printed, and the RAM dumped to the
    file ["core"].  With exit status zero the processor's text is not
    asked for and no dump is written. *)
Theorem post_mortem_iff_abnormal (e : @Env P) (v0 : Via6522) (h0 : @Heap P) :
  romError e = None ->
  let run := mainReturningStatus e (mkWorld v0 h0 []) in
  let l := log (snd run) in
  fst run = Ok (status e)
  /\ l = startup e ++ race e ++ (if status e =? 0 then [] else postMortem e) ++ teardown e
  /\ postMortemCalls l = (if status e =? 0 then [] else [CpuString; RamDump "core"])
  /\ (In (Extern CpuString) l <-> status e <> 0)
  /\ (In (Extern (RamDump "core")) l <-> status e <> 0)
  /\ (forall file, In (Extern (RamDump file)) l -> file = "core"%string).
Proof.
  intros Hrom. cbv zeta.
  destruct (run_of_main e v0 h0 Hrom) as (Hst & _ & Hlog).
  assert (Hcalls : postMortemCalls (log (snd (mainReturningStatus e (mkWorld v0 h0 []))))
                   = (if status e =? 0 then [] else [CpuString; RamDump "core"])).
  { rewrite Hlog, !postMortemCalls_app, startup_no_post_mortem,
      race_no_post_mortem, teardown_no_post_mortem.
    destruct (status e =? 0); reflexivity. }
  assert (Hin : forall c, In (Extern c) (log (snd (mainReturningStatus e (mkWorld v0 h0 []))))
                          -> (c = CpuString \/ exists f, c = RamDump f)
                          -> In c (postMortemCalls
                                     (log (snd (mainReturningStatus e (mkWorld v0 h0 [])))))).
  { intros c. generalize (log (snd (mainReturningStatus e (mkWorld v0 h0 [])))).
    intros l Hc Hkind. induction l as [| ev l IH]; [destruct Hc |].
    destruct Hc as [-> | Hc].
    - destruct Hkind as [-> | (f & ->)]; left; reflexivity.
    - specialize (IH Hc). cbn [postMortemCalls].
      destruct ev as [s | p c' | c']; try exact IH.
      destruct c'; try exact IH; right; exact IH. }
  split; [exact Hst |]. split; [exact Hlog |]. split; [exact Hcalls |].
  split; [| split].
  - split.
    + intros H Hz. apply Hin in H; [| left; reflexivity].
      rewrite Hcalls, Hz in H. destruct H.
    + intros Hnz. rewrite Hlog. apply Z.eqb_neq in Hnz. rewrite Hnz.
      apply in_or_app. right. apply in_or_app. right. apply in_or_app. left.
      left. reflexivity.
  - split.
    + intros H Hz. apply Hin in H; [| right; eexists; reflexivity].
      rewrite Hcalls, Hz in H. destruct H.
    + intros Hnz. rewrite Hlog. apply Z.eqb_neq in Hnz. rewrite Hnz.
      apply in_or_app. right. apply in_or_app. right. apply in_or_app. left.
      right. right. right. left. reflexivity.
  - intros file H. apply Hin in H; [| right; eexists; reflexivity].
    rewrite Hcalls in H. destruct (status e =? 0); [destruct H |].
    destruct H as [H | [H | []]]; [discriminate H | injection H as ->; reflexivity].
Qed.

(** C9.  When the ROM image loads, whichever case of the [select] fires
    and whatever status the processor published, the peripherals attached
    to the VIA when [mainReturningStatus] returns are the ones whose
    [Close] was called, once each; that is the display on port B when
    one was asked for, and nothing otherwise.  The calls to [Close] are
    deferred calls: they are the last events of the run, after the
    post-mortem actions.  The shutdown hook of the peripheral interface is
    not invoked. *)
Theorem teardown_on_every_exit_path (e : @Env P) (v0 : Via6522) (h0 : @Heap P) :
  romError e = None ->
  let run := mainReturningStatus e (mkWorld v0 h0 []) in
  let v := via (snd run) in
  let l := log (snd run) in
  closeCalls l = paPeripherals v ++ pbPeripherals v
  /\ paPeripherals v = []
  /\ pbPeripherals v = (if ViaSsd1306 (parsed e) then [ssd1306 e] else [])
  /\ (forall p, In p (paPeripherals v ++ pbPeripherals v) -> In (Called p CClose) l)
  /\ l = (startup e ++ race e ++ (if status e =? 0 then [] else postMortem e))
         ++ teardown e
  /\ closeCalls (teardown e) = paPeripherals v ++ pbPeripherals v
  /\ shutdownCalls l = [].
Proof.
  intros Hrom. cbv zeta.
  destruct (run_of_main e v0 h0 Hrom) as (_ & Hvia & Hlog).
  rewrite Hvia, Hlog. cbn [paPeripherals pbPeripherals app].
  unfold startup, race, postMortem, teardown.
  destruct (ViaSsd1306 (parsed e)), (Debug (parsed e)), (fires e) as [c | sig],
    (status e =? 0);
    (split; [reflexivity |]); (split; [reflexivity |]); (split; [reflexivity |]);
    (split; [intros p Hp; cbn in Hp |- *; intuition (subst; auto 30) |]);
    (split; [rewrite <- ?app_assoc; reflexivity |]);
    split; reflexivity.
Qed.

End WithPeripherals.

(** *** The theorems at work on two runs *)

Lemma exit_status_of_race_witness :
  romError interruptedRun = None
  /\ fires interruptedRun = FromSigChan Interrupt
  /\ fst (mainReturningStatus interruptedRun bareBench) = Ok 1.
Proof.
  split; [reflexivity |]. split; [reflexivity |].
  destruct (exit_status_of_race interruptedRun bareBench eq_refl) as (_ & H & _).
  exact (H Interrupt eq_refl).
Defined.

Lemma post_mortem_iff_abnormal_witness :
  romError (exitedRun 3) = None
  /\ postMortemCalls
       (log (snd (mainReturningStatus (exitedRun 3) (mkWorld (via bareBench) (heap bareBench) []))))
     = [CpuString; RamDump "core"].
Proof.
  split; [reflexivity |].
  destruct (post_mortem_iff_abnormal (exitedRun 3) (via bareBench) (heap bareBench) eq_refl)
    as (_ & _ & H & _).
  exact H.
Defined.

Lemma teardown_on_every_exit_path_witness :
  romError (exitedRun 0) = None
  /\ closeCalls
       (log (snd (mainReturningStatus (exitedRun 0) (mkWorld (via bareBench) (heap bareBench) []))))
     = [7%nat].
Proof.
  split; [reflexivity |].
  destruct (teardown_on_every_exit_path (exitedRun 0) (via bareBench) (heap bareBench) eq_refl)
    as (H & _ & Hpb & _).
  rewrite H. cbv zeta in Hpb. rewrite Hpb. reflexivity.
Defined.

End MainFacts.

(** * More of the register file *)

Module ViaExtra.

Import Via6522 ViaFacts.

Section WithPeripherals.

Context {P : Type} {PP : ParallelPeripheral.t P} {GT : GoText}.

Local Abbreviation World := (@World P).

Lemma since_same (w w' : World) : log w' = log w -> since w w' = [].
Proof.
  intros H. apply since_app. rewrite H, app_nil_r. reflexivity.
Qed.

(** A write to any register other than [a], handled or not, and a read of
    any register other than [a], leave what a read of [a] returns. *)
Ltac other_register a' :=
  destruct (Z.eq_dec a' 0x0) as [-> | ?];
  [ | destruct (Z.eq_dec a' 0x1) as [-> | ?];
      [ | destruct (Z.eq_dec a' 0x2) as [-> | ?];
          [ | destruct (Z.eq_dec a' 0x3) as [-> | ?];
              [ | destruct (Z.eq_dec a' 0xC) as [-> | ?] ] ] ] ].

Lemma Write_elsewhere (a a' : Z) (data' : byte) (w : World) :
  a = 0x2 \/ a = 0x3 \/ a = 0xC -> a' <> a ->
  fst (Read a (snd (Write a' data' w))) = fst (Read a w).
Proof.
  intros Ha Hne. other_register a'.
  - destruct (Write_portB data' w) as (out & Heq & _). rewrite Heq.
    destruct Ha as [-> | [-> | ->]]; reflexivity.
  - destruct (Write_portA data' w) as (out & Heq & _). rewrite Heq.
    destruct Ha as [-> | [-> | ->]]; reflexivity.
  - destruct Ha as [-> | [-> | ->]]; [contradiction | reflexivity | reflexivity].
  - destruct Ha as [-> | [-> | ->]]; [reflexivity | contradiction | reflexivity].
  - destruct Ha as [-> | [-> | ->]]; [reflexivity | reflexivity | contradiction].
  - unfold Write at 1.
    rewrite (eqb_false a' 0x0), (eqb_false a' 0x1), (eqb_false a' 0x2),
      (eqb_false a' 0x3), (eqb_false a' 0xC) by assumption.
    reflexivity.
Qed.

Lemma Read_elsewhere (a a' : Z) (w : World) :
  a = 0x2 \/ a = 0x3 \/ a = 0xC -> a' <> a ->
  fst (Read a (snd (Read a' w))) = fst (Read a w).
Proof.
  intros Ha Hne. other_register a'.
  - destruct (Read_portB w) as (h' & new & Heq & _). rewrite Heq.
    destruct Ha as [-> | [-> | ->]]; reflexivity.
  - destruct (Read_portA w) as (h' & new & Heq & _). rewrite Heq.
    destruct Ha as [-> | [-> | ->]]; reflexivity.
  - destruct Ha as [-> | [-> | ->]]; [contradiction | reflexivity | reflexivity].
  - destruct Ha as [-> | [-> | ->]]; [reflexivity | contradiction | reflexivity].
  - destruct Ha as [-> | [-> | ->]]; [reflexivity | reflexivity | contradiction].
  - unfold Read at 2.
    rewrite (eqb_false a' 0x0), (eqb_false a' 0x1), (eqb_false a' 0x2),
      (eqb_false a' 0x3), (eqb_false a' 0xC) by assumption.
    reflexivity.
Qed.

(** X1.  The direction registers and the control register keep what is
    written to them: a write of [data] to register 0x2, 0x3 or 0xC
    followed by a read of the same register returns [data], and the pair
    calls no peripheral and prints nothing.  What a read of such a
    register returns is changed by no write to another address and by no
    read of another address, handled or not. *)
Theorem register_keeps_what_is_written (w : World) (a : Z) (data : byte) :
  a = 0x2 \/ a = 0x3 \/ a = 0xC ->
  let w' := snd ((Write a data ;;; Read a) w) in
  fst ((Write a data ;;; Read a) w) = Ok data
  /\ heap w' = heap w
  /\ log w' = log w
  /\ (forall a' data', a' <> a ->
        fst (Read a (snd (Write a' data' w))) = fst (Read a w))
  /\ (forall a', a' <> a ->
        fst (Read a (snd (Read a' w))) = fst (Read a w)).
Proof.
  intros Ha. cbv zeta.
  split; [destruct Ha as [-> | [-> | ->]]; reflexivity |].
  split; [destruct Ha as [-> | [-> | ->]]; reflexivity |].
  split; [destruct Ha as [-> | [-> | ->]]; reflexivity |].
  split.
  - intros a' data' Hne. apply Write_elsewhere; assumption.
  - intros a' Hne. apply Read_elsewhere; assumption.
Qed.

(** X2.  Output pins read back what was written: after a write of [o] to
    the output register of a port, a read of the same address returns a
    byte whose bit [n], for every pin [n] the direction register marks as
    output, is bit [n] of [o], whatever the peripherals of the port
    drive; on a pin marked as input it is the OR of what the peripherals
    contribute after the write. *)
Theorem output_pins_read_back (w : World) (o : byte) (n : Z) :
  0 <= n < 8 ->
  let v := via w in
  (exists r,
      fst ((Write 0x0 o ;;; Read 0x0) w) = Ok r
      /\ (Z.testbit (ddrb v) n = true -> Z.testbit r n = Z.testbit o n)
      /\ (Z.testbit (ddrb v) n = false ->
          Z.testbit r n
          = existsb (fun c => Z.testbit c n)
                    (contributions (pbPeripherals v)
                       (written (Z.land o (ddrb v)) (pbPeripherals v) (heap w)))))
  /\ (exists r,
         fst ((Write 0x1 o ;;; Read 0x1) w) = Ok r
         /\ (Z.testbit (ddra v) n = true -> Z.testbit r n = Z.testbit o n)
         /\ (Z.testbit (ddra v) n = false ->
             Z.testbit r n
             = existsb (fun c => Z.testbit c n)
                       (contributions (paPeripherals v)
                          (written (Z.land o (ddra v)) (paPeripherals v) (heap w))))).
Proof.
  intros Hn. cbv zeta. split.
  - unfold bind. destruct (Write_portB o w) as (out & HW & _). rewrite HW.
    match goal with
    | |- context [Read 0x0 ?w1] =>
        destruct (Read_portB w1) as (h1 & new1 & HR & _); rewrite HR
    end.
    cbn [fst via heap pbPeripherals orb ddrb set_orb].
    eexists. split; [reflexivity |].
    rewrite readMixedInputOutput_low_bits by exact Hn.
    split; intros Hd; rewrite Hd; [reflexivity | apply orAll_bits].
  - unfold bind. destruct (Write_portA o w) as (out & HW & _). rewrite HW.
    match goal with
    | |- context [Read 0x1 ?w1] =>
        destruct (Read_portA w1) as (h1 & new1 & HR & _); rewrite HR
    end.
    cbn [fst via heap paPeripherals ora ddra set_ora].
    eexists. split; [reflexivity |].
    rewrite readMixedInputOutput_low_bits by exact Hn.
    split; intros Hd; rewrite Hd; [reflexivity | apply orAll_bits].
Qed.

(** X3.  A read of a port never returns a stale input: whatever the input
    register held before, the read returns the same byte and leaves the
    same VIA. *)
Theorem Read_ignores_old_input (w : World) (x : byte) :
  let staleB := mkWorld (set_irb x (via w)) (heap w) (log w) in
  let staleA := mkWorld (set_ira x (via w)) (heap w) (log w) in
  fst (Read 0x0 staleB) = fst (Read 0x0 w)
  /\ via (snd (Read 0x0 staleB)) = via (snd (Read 0x0 w))
  /\ fst (Read 0x1 staleA) = fst (Read 0x1 w)
  /\ via (snd (Read 0x1 staleA)) = via (snd (Read 0x1 w)).
Proof.
  cbv zeta.
  destruct (Read_portB w) as (h1 & n1 & H1 & _).
  destruct (Read_portB (mkWorld (set_irb x (via w)) (heap w) (log w)))
    as (h2 & n2 & H2 & _).
  destruct (Read_portA w) as (h3 & n3 & H3 & _).
  destruct (Read_portA (mkWorld (set_ira x (via w)) (heap w) (log w)))
    as (h4 & n4 & H4 & _).
  rewrite H1, H2, H3, H4. cbn [fst snd via heap].
  repeat split.
Qed.

(** *** Polls in full *)

Lemma readings_fst (ps : list addr) (h : @Heap P) : map fst (readings ps h) = ps.
Proof.
  revert h. induction ps as [| p ps IH]; intros h; [reflexivity |].
  cbn [readings]. destruct (ParallelPeripheral.Read (h p)) as [r s'].
  cbn [map fst]. rewrite IH. reflexivity.
Qed.

Lemma polled_outside (ps : list addr) (h : @Heap P) (q : addr) :
  ~ In q ps -> polled ps h q = h q.
Proof.
  revert h. induction ps as [| p ps IH]; intros h Hq; [reflexivity |].
  cbn [polled]. destruct (ParallelPeripheral.Read (h p)) as [r s'].
  rewrite IH by (intros Hin; apply Hq; right; exact Hin).
  apply upd_other. intros ->. apply Hq. left. reflexivity.
Qed.

Ltac poll_full step :=
  let w := fresh "w" in
  let p := fresh "p" in
  let ps := fresh "ps" in
  let IH := fresh "IH" in
  intros ps; induction ps as [| p ps IH]; intros w;
  [ cbn; unfold ret; rewrite app_nil_r; destruct w as [[] ? ?]; reflexivity
  | cbn [forRange contributions readings polled]; unfold bind at 1; cbv beta;
    rewrite step;
    destruct (ParallelPeripheral.Read (heap w p)) as [? ?];
    rewrite IH; cbn [via heap log irb set_irb ira set_ira map fst snd];
    rewrite <- app_assoc; reflexivity ].

Lemma poll_portB_full :
  forall (ps : list addr) (w : World),
    forRange ps (fun p =>
      r <- callRead p ;;
      m <- callPinMask p ;;
      modVia (fun v => set_irb (Z.lor (irb v) (Z.land r m)) v)) w
    = (Ok tt,
       mkWorld (set_irb (fold_left Z.lor (contributions ps (heap w)) (irb (via w))) (via w))
               (polled ps (heap w))
               (log w ++ map (fun x => Called (fst x) (CRead (snd x)))
                             (readings ps (heap w)))).
Proof.
  poll_full poll_portB_step.
Qed.

Lemma poll_portA_full :
  forall (ps : list addr) (w : World),
    forRange ps (fun p =>
      r <- callRead p ;;
      m <- callPinMask p ;;
      modVia (fun v => set_ira (Z.lor (ira v) (Z.land r m)) v)) w
    = (Ok tt,
       mkWorld (set_ira (fold_left Z.lor (contributions ps (heap w)) (ira (via w))) (via w))
               (polled ps (heap w))
               (log w ++ map (fun x => Called (fst x) (CRead (snd x)))
                             (readings ps (heap w)))).
Proof.
  poll_full poll_portA_step.
Qed.

Ltac read_full loop :=
  unfold Read; cbv beta iota delta [Z.eqb Pos.eqb];
  unfold bind at 1; unfold modVia at 1;
  unfold bind at 1; unfold getVia at 1;
  unfold bind at 1;
  cbn [via heap log pbPeripherals paPeripherals set_irb set_ira];
  rewrite loop;
  cbn [via heap log irb ira set_irb set_ira];
  rewrite fold_left_lor, Z.lor_0_l;
  unfold bind, getVia, ret; reflexivity.

Lemma Read_portB_full (w : World) :
  Read 0x0 w
  = (Ok (readMixedInputOutput (orAll (contributions (pbPeripherals (via w)) (heap w)))
                              (orb (via w)) (ddrb (via w))),
     mkWorld (set_irb (orAll (contributions (pbPeripherals (via w)) (heap w))) (via w))
             (polled (pbPeripherals (via w)) (heap w))
             (log w ++ map (fun x => Called (fst x) (CRead (snd x)))
                           (readings (pbPeripherals (via w)) (heap w)))).
Proof.
  read_full poll_portB_full.
Qed.

Lemma Read_portA_full (w : World) :
  Read 0x1 w
  = (Ok (readMixedInputOutput (orAll (contributions (paPeripherals (via w)) (heap w)))
                              (ora (via w)) (ddra (via w))),
     mkWorld (set_ira (orAll (contributions (paPeripherals (via w)) (heap w))) (via w))
             (polled (paPeripherals (via w)) (heap w))
             (log w ++ map (fun x => Called (fst x) (CRead (snd x)))
                           (readings (paPeripherals (via w)) (heap w)))).
Proof.
  read_full poll_portA_full.
Qed.

Lemma hookCalls_reads (rs : list (addr * byte)) :
  hookCalls (map (fun x => Called (fst x) (CRead (snd x))) rs)
  = map (fun x => (fst x, CRead (snd x))) rs.
Proof.
  induction rs as [| x rs IH]; [reflexivity |].
  cbn [map hookCalls]. rewrite IH. reflexivity.
Qed.

Lemma stdout_app (l1 l2 : list event) : stdout (l1 ++ l2) = stdout l1 ++ stdout l2.
Proof.
  induction l1 as [| e l1 IH]; cbn [app stdout]; [reflexivity |].
  destruct e as [s | p c | c]; try exact IH. cbn [app]. rewrite IH. reflexivity.
Qed.

Lemma stdout_reads (rs : list (addr * byte)) :
  stdout (map (fun x => Called (fst x) (CRead (snd x))) rs) = [].
Proof.
  induction rs as [| x rs IH]; [reflexivity | exact IH].
Qed.

Lemma stdout_writes (ds : list (addr * byte)) :
  stdout (map (fun d => Called (fst d) (CWrite (snd d))) ds) = [].
Proof.
  induction ds as [| x ds IH]; [reflexivity | exact IH].
Qed.

(** X4.  A read of a port polls the port and nothing else: it calls
    [Read] once on each peripheral attached to that port, in attachment
    order, calls no other acting method and prints nothing; the states of
    the peripherals that are not attached to the port are as before. *)
Theorem Read_polls_its_port (w : World) :
  let v := via w in
  let wB := snd (Read 0x0 w) in
  let wA := snd (Read 0x1 w) in
  (hookCalls (since w wB)
   = map (fun x => (fst x, CRead (snd x))) (readings (pbPeripherals v) (heap w))
   /\ map fst (hookCalls (since w wB)) = pbPeripherals v
   /\ stdout (since w wB) = []
   /\ (forall q, ~ In q (pbPeripherals v) -> heap wB q = heap w q))
  /\ (hookCalls (since w wA)
      = map (fun x => (fst x, CRead (snd x))) (readings (paPeripherals v) (heap w))
      /\ map fst (hookCalls (since w wA)) = paPeripherals v
      /\ stdout (since w wA) = []
      /\ (forall q, ~ In q (paPeripherals v) -> heap wA q = heap w q)).
Proof.
  cbv zeta. rewrite Read_portB_full, Read_portA_full. cbn [snd heap].
  split.
  - erewrite since_app by reflexivity.
    rewrite hookCalls_reads, stdout_reads, map_map. cbn [fst].
    split; [reflexivity |]. split; [apply readings_fst |].
    split; [reflexivity |]. intros q Hq. apply polled_outside. exact Hq.
  - erewrite since_app by reflexivity.
    rewrite hookCalls_reads, stdout_reads, map_map. cbn [fst].
    split; [reflexivity |]. split; [apply readings_fst |].
    split; [reflexivity |]. intros q Hq. apply polled_outside. exact Hq.
Qed.

(** *** Which peripheral drives which pin *)

Lemma existsb_none {A : Type} (f : A -> bool) (l : list A) :
  (forall x, In x l -> f x = false) -> existsb f l = false.
Proof.
  induction l as [| a l IH]; intros H; [reflexivity |].
  cbn [existsb]. rewrite (H a (or_introl eq_refl)).
  apply IH. intros x Hx. apply H. right. exact Hx.
Qed.

Lemma existsb_only (f : addr -> bool) (l : list addr) (p : addr) :
  In p l -> (forall q, In q l -> q <> p -> f q = false) -> existsb f l = f p.
Proof.
  induction l as [| a l IH]; intros Hin Hothers; [destruct Hin |].
  cbn [existsb]. destruct (Nat.eq_dec a p) as [-> | Hne].
  - destruct (f p); [reflexivity |]. cbn [Datatypes.orb].
    destruct (in_dec Nat.eq_dec p l) as [Hpl | Hpl].
    + apply IH; [exact Hpl |]. intros q Hq Hqp. apply Hothers; [right |]; assumption.
    + apply existsb_none. intros q Hq. apply Hothers; [right; exact Hq |].
      intros ->. contradiction.
  - rewrite (Hothers a (or_introl eq_refl) Hne). cbn [Datatypes.orb].
    destruct Hin as [Heq | Hin]; [contradiction |].
    apply IH; [exact Hin |]. intros q Hq Hqp. apply Hothers; [right |]; assumption.
Qed.

Lemma drives_split (h : @Heap P) (n : Z) (p : addr) :
  drives h n p
  = Z.testbit (fst (ParallelPeripheral.Read (h p))) n && wired h n p.
Proof.
  unfold drives, wired. destruct (ParallelPeripheral.Read (h p)); reflexivity.
Qed.

Lemma pin_of_distinct (ps : list addr) (h : @Heap P) (n : Z) :
  NoDup ps ->
  Z.testbit (orAll (contributions ps h)) n = existsb (drives h n) ps.
Proof.
  intros Hnd. rewrite orAll_bits, contributions_distinct by exact Hnd.
  clear Hnd. induction ps as [| p ps IH]; [reflexivity |].
  cbn [map existsb]. rewrite IH. f_equal.
  unfold drives. destruct (ParallelPeripheral.Read (h p)) as [r s'].
  apply Z.land_spec.
Qed.

Lemma pins_of_port (ps : list addr) (h : @Heap P) (n : Z) :
  NoDup ps ->
  Z.testbit (orAll (contributions ps h)) n = existsb (drives h n) ps
  /\ ((forall p, In p ps -> wired h n p = false) ->
      Z.testbit (orAll (contributions ps h)) n = false)
  /\ (forall p, In p ps ->
        (forall q, In q ps -> q <> p -> wired h n q = false) ->
        Z.testbit (orAll (contributions ps h)) n
        = Z.testbit (fst (ParallelPeripheral.Read (h p))) n && wired h n p).
Proof.
  intros Hnd. rewrite (pin_of_distinct ps h n Hnd).
  split; [reflexivity |]. split.
  - intros Hnone. apply existsb_none. intros p Hp.
    rewrite drives_split, (Hnone p Hp). apply andb_false_r.
  - intros p Hp Hothers. rewrite <- drives_split. apply existsb_only; [exact Hp |].
    intros q Hq Hne. rewrite drives_split, (Hothers q Hq Hne). apply andb_false_r.
Qed.

(** X5.  On a port of distinct peripherals, pin [n] of the input register
    after a read is a one exactly when some peripheral of the port both
    returns a one on that pin and has the pin in its mask.  A pin no
    peripheral of the port is wired to reads as zero, and a pin one
    peripheral alone is wired to carries that peripheral's bit, whatever
    the other peripherals return. *)
Theorem pin_is_driven_by_the_wired (w : World) (n : Z) :
  let v := via w in
  let inB := irb (via (snd (Read 0x0 w))) in
  let inA := ira (via (snd (Read 0x1 w))) in
  (NoDup (pbPeripherals v) ->
   Z.testbit inB n = existsb (drives (heap w) n) (pbPeripherals v)
   /\ ((forall p, In p (pbPeripherals v) -> wired (heap w) n p = false) ->
       Z.testbit inB n = false)
   /\ (forall p, In p (pbPeripherals v) ->
         (forall q, In q (pbPeripherals v) -> q <> p -> wired (heap w) n q = false) ->
         Z.testbit inB n
         = Z.testbit (fst (ParallelPeripheral.Read (heap w p))) n && wired (heap w) n p))
  /\ (NoDup (paPeripherals v) ->
      Z.testbit inA n = existsb (drives (heap w) n) (paPeripherals v)
      /\ ((forall p, In p (paPeripherals v) -> wired (heap w) n p = false) ->
          Z.testbit inA n = false)
      /\ (forall p, In p (paPeripherals v) ->
            (forall q, In q (paPeripherals v) -> q <> p -> wired (heap w) n q = false) ->
            Z.testbit inA n
            = Z.testbit (fst (ParallelPeripheral.Read (heap w p))) n && wired (heap w) n p)).
Proof.
  cbv zeta. rewrite Read_portB_full, Read_portA_full. cbn [snd via irb ira set_irb set_ira].
  split; intros Hnd; apply pins_of_port; exact Hnd.
Qed.

(** *** What a write hands out *)

Lemma deliveries_masked (d : byte) (ps : list addr) (h : @Heap P) (p : addr) (b : byte) :
  In (p, b) (deliveries d ps h) -> exists m, b = Z.land d m.
Proof.
  revert h. induction ps as [| q ps IH]; intros h Hin; [destruct Hin |].
  cbn [deliveries] in Hin. destruct Hin as [Heq | Hin].
  - injection Heq as _ <-. eexists. reflexivity.
  - exact (IH _ Hin).
Qed.

Lemma deliveries_zero (ps : list addr) (h : @Heap P) :
  deliveries 0 ps h = map (fun p => (p, 0)) ps.
Proof.
  revert h. induction ps as [| q ps IH]; intros h; [reflexivity |].
  cbn [deliveries map]. rewrite IH. reflexivity.
Qed.

Lemma In_write_call (p : addr) (b : byte) (ds : list (addr * byte)) :
  In (p, CWrite b) (map (fun d => (fst d, CWrite (snd d))) ds) -> In (p, b) ds.
Proof.
  intros H. apply in_map_iff in H. destruct H as ([q c] & Heq & Hin).
  cbn [fst snd] in Heq. injection Heq as -> ->. exact Hin.
Qed.

Lemma Write_portB_calls (data : byte) (w : World) :
  hookCalls (since w (snd (Write 0x0 data w)))
  = map (fun d => (fst d, CWrite (snd d)))
        (deliveries (Z.land data (ddrb (via w))) (pbPeripherals (via w)) (heap w)).
Proof.
  destruct (Write_portB data w) as (out & Heq & Hout). rewrite Heq. cbn [snd].
  erewrite since_app by reflexivity.
  rewrite hookCalls_app, Hout, hookCalls_writes. reflexivity.
Qed.

Lemma Write_portA_calls (data : byte) (w : World) :
  hookCalls (since w (snd (Write 0x1 data w)))
  = map (fun d => (fst d, CWrite (snd d)))
        (deliveries (Z.land data (ddra (via w))) (paPeripherals (via w)) (heap w)).
Proof.
  destruct (Write_portA data w) as (out & Heq & Hout). rewrite Heq. cbn [snd].
  erewrite since_app by reflexivity.
  rewrite hookCalls_app, Hout, hookCalls_writes. reflexivity.
Qed.

Lemma driven_bit (data ddr : byte) (ps : list addr) (h : @Heap P)
      (p : addr) (b : byte) (n : Z) :
  In (p, b) (deliveries (Z.land data ddr) ps h) ->
  Z.testbit b n = true ->
  Z.testbit data n = true /\ Z.testbit ddr n = true
  /\ (NoDup ps -> Z.testbit (ParallelPeripheral.PinMask (h p)) n = true).
Proof.
  intros Hin Hbit.
  destruct (deliveries_masked _ _ _ _ _ Hin) as (m & ->).
  rewrite !Z.land_spec in Hbit.
  apply andb_true_iff in Hbit. destruct Hbit as [Hbit Hm].
  apply andb_true_iff in Hbit. destruct Hbit as [Hdata Hddr].
  split; [exact Hdata |]. split; [exact Hddr |].
  intros Hnd. rewrite (deliveries_distinct _ _ _ Hnd) in Hin.
  apply in_map_iff in Hin. destruct Hin as (q & Heq & _).
  injection Heq as -> Hb.
  assert (Hb' : Z.testbit (Z.land (Z.land data ddr) (ParallelPeripheral.PinMask (h p))) n
                = Z.testbit (Z.land (Z.land data ddr) m) n) by (rewrite Hb; reflexivity).
  rewrite !Z.land_spec, Hdata, Hddr, Hm in Hb'. exact Hb'.
Qed.

(** X6.  A write to a port drives output pins only: a one on pin [n] of a
    byte handed to a peripheral is a one on pin [n] of the byte written
    and of the direction register, and, on a port of distinct
    peripherals, of the pin mask of that peripheral.  No peripheral is
    handed a bit of an input pin or of a pin it is not wired to. *)
Theorem Write_drives_output_pins_only (w : World) (data : byte) (p : addr)
        (b : byte) (n : Z) :
  let v := via w in
  (In (p, CWrite b) (hookCalls (since w (snd (Write 0x0 data w)))) ->
   Z.testbit b n = true ->
   Z.testbit data n = true /\ Z.testbit (ddrb v) n = true
   /\ (NoDup (pbPeripherals v) ->
       Z.testbit (ParallelPeripheral.PinMask (heap w p)) n = true))
  /\ (In (p, CWrite b) (hookCalls (since w (snd (Write 0x1 data w)))) ->
      Z.testbit b n = true ->
      Z.testbit data n = true /\ Z.testbit (ddra v) n = true
      /\ (NoDup (paPeripherals v) ->
          Z.testbit (ParallelPeripheral.PinMask (heap w p)) n = true)).
Proof.
  cbv zeta. rewrite Write_portB_calls, Write_portA_calls.
  split; intros Hin Hbit; apply In_write_call in Hin;
    exact (driven_bit _ _ _ _ _ _ _ Hin Hbit).
Qed.

(** X7.  After [Reset] every pin is an input, so a write to a port
    drives nothing: the byte is stored in the output register, each
    peripheral of the port is still called, once, and is handed zero; a
    read of the port that follows returns the inputs alone. *)
Theorem after_Reset_nothing_is_driven (w : World) (data : byte) :
  let v := via w in
  let wB := snd ((Reset ;;; Write 0x0 data) w) in
  let wA := snd ((Reset ;;; Write 0x1 data) w) in
  (fst ((Reset ;;; Write 0x0 data) w) = Ok tt
   /\ orb (via wB) = data
   /\ hookCalls (since w wB) = map (fun p => (p, CWrite 0)) (pbPeripherals v)
   /\ fst (Read 0x0 wB)
      = Ok (Z.land (orAll (contributions (pbPeripherals v) (heap wB))) 0xFF))
  /\ (fst ((Reset ;;; Write 0x1 data) w) = Ok tt
      /\ ora (via wA) = data
      /\ hookCalls (since w wA) = map (fun p => (p, CWrite 0)) (paPeripherals v)
      /\ fst (Read 0x1 wA)
         = Ok (Z.land (orAll (contributions (paPeripherals v) (heap wA))) 0xFF)).
Proof.
  cbv zeta. unfold bind.
  change (Reset w)
    with (Ok tt, mkWorld (mkVia 0 0 0 0 0 0 0 (options (via w))
                                (paPeripherals (via w)) (pbPeripherals (via w)))
                         (heap w) (log w)).
  cbv iota. split.
  - match goal with
    | |- context [Write 0x0 data ?w0] =>
        destruct (Write_portB data w0) as (out & Heq & Hout); rewrite Heq
    end.
    cbn [fst snd via heap log orb ddrb pbPeripherals set_orb].
    split; [reflexivity |]. split; [reflexivity |]. split.
    + erewrite since_app by reflexivity.
      rewrite hookCalls_app, Hout, hookCalls_writes, Z.land_0_r, deliveries_zero, map_map.
      reflexivity.
    + rewrite Read_portB_full. cbn [fst via heap orb ddrb pbPeripherals].
      unfold readMixedInputOutput. rewrite Z.land_0_r, Z.lor_0_l. reflexivity.
  - match goal with
    | |- context [Write 0x1 data ?w0] =>
        destruct (Write_portA data w0) as (out & Heq & Hout); rewrite Heq
    end.
    cbn [fst snd via heap log ora ddra paPeripherals set_ora].
    split; [reflexivity |]. split; [reflexivity |]. split.
    + erewrite since_app by reflexivity.
      rewrite hookCalls_app, Hout, hookCalls_writes, Z.land_0_r, deliveries_zero, map_map.
      reflexivity.
    + rewrite Read_portA_full. cbn [fst via heap ora ddra paPeripherals].
      unfold readMixedInputOutput. rewrite Z.land_0_r, Z.lor_0_l. reflexivity.
Qed.

(** X8.  The two ports are separate on writes: a write to the output
    register of a port calls the peripherals of that port and no other,
    and the state of every peripheral that is not attached to that port
    is as before, in particular that of a peripheral attached to the
    other port alone. *)
Theorem Write_keeps_to_its_port (w : World) (data : byte) :
  let v := via w in
  let wB := snd (Write 0x0 data w) in
  let wA := snd (Write 0x1 data w) in
  (map fst (hookCalls (since w wB)) = pbPeripherals v
   /\ (forall q, ~ In q (pbPeripherals v) ->
         heap wB q = heap w q /\ ~ In q (map fst (hookCalls (since w wB)))))
  /\ (map fst (hookCalls (since w wA)) = paPeripherals v
      /\ (forall q, ~ In q (paPeripherals v) ->
            heap wA q = heap w q /\ ~ In q (map fst (hookCalls (since w wA))))).
Proof.
  cbv zeta. rewrite Write_portB_calls, Write_portA_calls, !map_map.
  cbn [fst].
  change (fun x : addr * byte => fst x) with (@fst addr byte).
  rewrite !deliveries_fst.
  destruct (Write_portB data w) as (outB & HB & _).
  destruct (Write_portA data w) as (outA & HA & _).
  rewrite HB, HA. cbn [snd heap].
  split; (split; [reflexivity |]); intros q Hq;
    (split; [apply written_outside; exact Hq | exact Hq]).
Qed.

(** *** The store after Shutdown *)

Lemma shutdown_loop_store (label : string) (ps : list addr) (w : World) :
  NoDup ps ->
  Forall (fun p => fst (ParallelPeripheral.Shutdown (heap w p)) = Returns) ps ->
  forall q,
    In q ps ->
    heap (snd (forRange ps (fun p =>
                 name <- callString p ;;
                 emit (Stdout (String ++ label ++ name ++ nl)%string) ;;;
                 callShutdown p) w)) q
    = snd (ParallelPeripheral.Shutdown (heap w q)).
Proof.
  intros Hnd. revert w. induction Hnd as [| p ps Hnotin Hnd IH]; intros w Hall q Hq;
    [destruct Hq |].
  rewrite forRange_cons. cbv beta. rewrite shutdown_step.
  inversion Hall as [| p0 ps0 Hp Hps]; subst.
  destruct (ParallelPeripheral.Shutdown (heap w p)) as [c s'] eqn:Hs.
  cbn [fst] in Hp. subst c.
  assert (Hall' : Forall (fun p0 => fst (ParallelPeripheral.Shutdown (upd (heap w) p s' p0)) = Returns) ps).
  { apply Forall_forall. intros x Hx.
    rewrite upd_other by (intros ->; contradiction).
    rewrite Forall_forall in Hps. exact (Hps x Hx). }
  destruct Hq as [<- | Hq].
  - match goal with
    | |- context [forRange ps ?body ?w1] =>
        destruct (shutdown_loop label ps w1) as (r & h' & new & k & Heq & _ & _ & _ & Hframe & _)
    end.
    rewrite Heq. cbn [snd heap] in *. rewrite Hframe by exact Hnotin.
    rewrite upd_same, Hs. reflexivity.
  - match goal with
    | |- context [forRange ps ?body ?w1] => rewrite (IH w1 Hall' q Hq)
    end.
    cbn [heap]. rewrite upd_other by (intros ->; contradiction). reflexivity.
Qed.

(** X9.  [Shutdown] leaves alone every peripheral that is attached to
    neither port.  When the attached peripherals are distinct and their
    hooks return, each of them is left in the state its own hook leaves
    it in, reached from the state it had before: each is shut down once. *)
Theorem Shutdown_shuts_each_down_once (w : World) :
  let ps := paPeripherals (via w) ++ pbPeripherals (via w) in
  (forall q, ~ In q ps -> heap (snd (Shutdown w)) q = heap w q)
  /\ (NoDup ps ->
      Forall (fun p => fst (ParallelPeripheral.Shutdown (heap w p)) = Returns) ps ->
      forall q, In q ps ->
        heap (snd (Shutdown w)) q = snd (ParallelPeripheral.Shutdown (heap w q))).
Proof.
  cbv zeta. rewrite Shutdown_unfold.
  destruct (shutdown_loop " shutting down PORTA peripheral: " (paPeripherals (via w)) w)
    as (rA & hA & newA & kA & HeqA & _ & _ & _ & HframeA & _).
  pose proof (shutdown_loop_returns " shutting down PORTA peripheral: "
                (paPeripherals (via w)) w) as HretA.
  pose proof (shutdown_loop_store " shutting down PORTA peripheral: "
                (paPeripherals (via w)) w) as HstoreA.
  rewrite HeqA in *. cbn [fst snd heap] in *.
  split.
  - intros q Hq.
    assert (HqA : ~ In q (paPeripherals (via w)))
      by (intros Hin; apply Hq, in_or_app; left; exact Hin).
    assert (HqB : ~ In q (pbPeripherals (via w)))
      by (intros Hin; apply Hq, in_or_app; right; exact Hin).
    destruct rA as [u | v]; cbn [snd heap via].
    + match goal with
      | |- context [forRange ?ps _ ?w1] =>
          destruct (shutdown_loop " shutting down PORTB peripheral: " ps w1)
            as (rB & hB & newB & kB & HeqB & _ & _ & _ & HframeB & _)
      end.
      rewrite HeqB. cbn [snd heap] in *.
      rewrite HframeB by exact HqB. apply HframeA. exact HqA.
    + apply HframeA. exact HqA.
  - intros Hnd Hall q Hq.
    apply Forall_app in Hall. destruct Hall as [HallA HallB].
    specialize (HretA (NoDup_app_remove_r _ _ Hnd) HallA).
    specialize (HstoreA (NoDup_app_remove_r _ _ Hnd) HallA).
    subst rA. cbn [via].
    assert (HallB' : Forall (fun p => fst (ParallelPeripheral.Shutdown (hA p)) = Returns)
                            (pbPeripherals (via w))).
    { apply Forall_forall. intros x Hx.
      rewrite HframeA by (exact (NoDup_app_apart _ _ x Hnd Hx)).
      rewrite Forall_forall in HallB. exact (HallB x Hx). }
    apply in_app_or in Hq. destruct Hq as [HqA | HqB].
    + match goal with
      | |- context [forRange ?ps _ ?w1] =>
          destruct (shutdown_loop " shutting down PORTB peripheral: " ps w1)
            as (rB & hB & newB & kB & HeqB & _ & _ & _ & HframeB & _)
      end.
      rewrite HeqB. cbn [snd heap] in *.
      rewrite HframeB.
      * apply HstoreA. exact HqA.
      * intros HqB. exact (NoDup_app_apart _ _ q Hnd HqB HqA).
    + rewrite (shutdown_loop_store " shutting down PORTB peripheral: "
                 (pbPeripherals (via w)) (mkWorld (via w) hA (log w ++ newA))
                 (NoDup_app_remove_l _ _ Hnd) HallB' q HqB).
      cbn [heap]. rewrite HframeA by (exact (NoDup_app_apart _ _ q Hnd HqB)).
      reflexivity.
Qed.

(** *** Attaching *)

Lemma deliveries_last (d : byte) (ps : list addr) (p : addr) (h : @Heap P) :
  deliveries d (ps ++ [p]) h
  = deliveries d ps h
    ++ [(p, Z.land d (ParallelPeripheral.PinMask (written d ps h p)))].
Proof.
  revert h. induction ps as [| q ps IH]; intros h; [reflexivity |].
  cbn [app deliveries written]. rewrite IH. reflexivity.
Qed.

Lemma contributions_last (ps : list addr) (p : addr) (h : @Heap P) :
  contributions (ps ++ [p]) h
  = contributions ps h
    ++ [let (r, s') := ParallelPeripheral.Read (polled ps h p) in
        Z.land r (ParallelPeripheral.PinMask s')].
Proof.
  revert h. induction ps as [| q ps IH]; intros h.
  - cbn [app contributions polled].
    destruct (ParallelPeripheral.Read (h p)); reflexivity.
  - cbn [app contributions polled].
    destruct (ParallelPeripheral.Read (h q)) as [r s'].
    rewrite IH. reflexivity.
Qed.

Lemma orAll_last (bs : list byte) (c : byte) : orAll (bs ++ [c]) = Z.lor (orAll bs) c.
Proof.
  induction bs as [| b bs IH]; cbn [app orAll fold_right].
  - rewrite Z.lor_0_r, Z.lor_0_l. reflexivity.
  - fold (orAll (bs ++ [c])). fold (orAll bs). rewrite IH, Z.lor_assoc. reflexivity.
Qed.

Lemma AttachToPortB_appends (p : addr) (w : World) :
  AttachToPortB p w
  = (Ok tt,
     mkWorld (set_pbPeripherals (pbPeripherals (via w) ++ [p]) (via w)) (heap w)
             (log w ++ [Stdout (String ++ " PORTB attaching "
                                  ++ ParallelPeripheral.String (heap w p)
                                  ++ " (pinmask: "
                                  ++ fmt_08b (ParallelPeripheral.PinMask (heap w p))
                                  ++ ")" ++ nl)%string])).
Proof.
  reflexivity.
Qed.

Lemma AttachToPortA_appends (p : addr) (w : World) :
  AttachToPortA p w
  = (Ok tt,
     mkWorld (set_paPeripherals (paPeripherals (via w) ++ [p]) (via w)) (heap w)
             (log w ++ [Stdout (String ++ " PORTA attaching "
                                  ++ ParallelPeripheral.String (heap w p)
                                  ++ " (pinmask: "
                                  ++ fmt_08b (ParallelPeripheral.PinMask (heap w p))
                                  ++ ")" ++ nl)%string])).
Proof.
  reflexivity.
Qed.

(** X10.  Attaching appends and does nothing else: [AttachToPortB] puts
    the peripheral at the end of the list of port B, whether or not it is
    attached already, leaves port A, the registers and every peripheral
    as they are, calls no acting method and prints one line with the
    name and the pin mask.  From then on the peripheral is served last on
    its port: a write hands it its byte after the peripherals attached
    before it, and a read ORs its contribution to theirs.  The same holds
    of [AttachToPortA] and port A. *)
Theorem attached_peripheral_comes_last (w : World) (p : addr) (data : byte) :
  let v := via w in
  let wB := snd (AttachToPortB p w) in
  let wA := snd (AttachToPortA p w) in
  let dB := Z.land data (ddrb v) in
  let dA := Z.land data (ddra v) in
  (AttachToPortB p w
   = (Ok tt,
      mkWorld (set_pbPeripherals (pbPeripherals v ++ [p]) v) (heap w)
              (log w ++ [Stdout (String ++ " PORTB attaching "
                                   ++ ParallelPeripheral.String (heap w p)
                                   ++ " (pinmask: "
                                   ++ fmt_08b (ParallelPeripheral.PinMask (heap w p))
                                   ++ ")" ++ nl)%string]))
   /\ hookCalls (since w wB) = []
   /\ hookCalls (since wB (snd (Write 0x0 data wB)))
      = map (fun d => (fst d, CWrite (snd d))) (deliveries dB (pbPeripherals v) (heap w))
        ++ [(p, CWrite (Z.land dB (ParallelPeripheral.PinMask
                                     (written dB (pbPeripherals v) (heap w) p))))]
   /\ irb (via (snd (Read 0x0 wB)))
      = Z.lor (orAll (contributions (pbPeripherals v) (heap w)))
              (let (r, s') := ParallelPeripheral.Read (polled (pbPeripherals v) (heap w) p) in
               Z.land r (ParallelPeripheral.PinMask s')))
  /\ (AttachToPortA p w
      = (Ok tt,
         mkWorld (set_paPeripherals (paPeripherals v ++ [p]) v) (heap w)
                 (log w ++ [Stdout (String ++ " PORTA attaching "
                                      ++ ParallelPeripheral.String (heap w p)
                                      ++ " (pinmask: "
                                      ++ fmt_08b (ParallelPeripheral.PinMask (heap w p))
                                      ++ ")" ++ nl)%string]))
      /\ hookCalls (since w wA) = []
      /\ hookCalls (since wA (snd (Write 0x1 data wA)))
         = map (fun d => (fst d, CWrite (snd d))) (deliveries dA (paPeripherals v) (heap w))
           ++ [(p, CWrite (Z.land dA (ParallelPeripheral.PinMask
                                        (written dA (paPeripherals v) (heap w) p))))]
      /\ ira (via (snd (Read 0x1 wA)))
         = Z.lor (orAll (contributions (paPeripherals v) (heap w)))
                 (let (r, s') := ParallelPeripheral.Read (polled (paPeripherals v) (heap w) p) in
                  Z.land r (ParallelPeripheral.PinMask s'))).
Proof.
  cbv zeta. rewrite AttachToPortB_appends, AttachToPortA_appends. cbn [snd].
  split.
  - split; [reflexivity |].
    split; [erewrite since_app by reflexivity; reflexivity |].
    split.
    + rewrite Write_portB_calls. cbn [via heap ddrb pbPeripherals set_pbPeripherals].
      rewrite deliveries_last, map_app. reflexivity.
    + rewrite Read_portB_full. cbn [snd via heap irb set_irb pbPeripherals set_pbPeripherals].
      rewrite contributions_last, orAll_last. reflexivity.
  - split; [reflexivity |].
    split; [erewrite since_app by reflexivity; reflexivity |].
    split.
    + rewrite Write_portA_calls. cbn [via heap ddra paPeripherals set_paPeripherals].
      rewrite deliveries_last, map_app. reflexivity.
    + rewrite Read_portA_full. cbn [snd via heap ira set_ira paPeripherals set_paPeripherals].
      rewrite contributions_last, orAll_last. reflexivity.
Qed.

(** X11.  The lists of attached peripherals and the options are changed
    by no read, no write, at any address and whether it returns or
    panics, nor by [Reset] or [Shutdown]: attaching is the one way to
    change them, and nothing detaches. *)
Theorem attachments_change_by_attach_only (w : World) (a : Z) (data : byte) :
  let same := fun w' : World =>
    paPeripherals (via w') = paPeripherals (via w)
    /\ pbPeripherals (via w') = pbPeripherals (via w)
    /\ options (via w') = options (via w) in
  same (snd (Read a w))
  /\ same (snd (Write a data w))
  /\ same (snd (Reset w))
  /\ same (snd (Shutdown w)).
Proof.
  cbv zeta.
  split; [apply Read_keeps_attachments |].
  split; [apply Write_keeps_attachments |].
  split; [repeat split |].
  rewrite Shutdown_unfold.
  destruct (shutdown_loop " shutting down PORTA peripheral: " (paPeripherals (via w)) w)
    as (rA & hA & newA & kA & HeqA & _).
  rewrite HeqA. destruct rA as [u | v]; [| repeat split].
  match goal with
  | |- context [forRange ?ps _ ?w1] =>
      destruct (shutdown_loop " shutting down PORTB peripheral: " ps w1)
        as (rB & hB & newB & kB & HeqB & _)
  end.
  rewrite HeqB. repeat split.
Qed.

(** *** The control modes *)

Lemma land_1 (x : Z) : Z.land x 1 = x mod 2.
Proof.
  change 1 with (Z.ones 1). rewrite Z.land_ones by lia. reflexivity.
Qed.

Lemma land_7 (x : Z) : Z.land x 7 = x mod 8.
Proof.
  change 7 with (Z.ones 3). rewrite Z.land_ones by lia. reflexivity.
Qed.

Lemma byte_of_modes (p : Z) :
  0 <= p < 256 ->
  p = p mod 2 + 2 * ((p / 2) mod 8) + 16 * ((p / 16) mod 2) + 32 * ((p / 32) mod 8).
Proof.
  intros Hp.
  pose proof (Z.div_mod p 2 ltac:(lia)) as H2.
  pose proof (Z.mod_pos_bound p 2 ltac:(lia)) as B2.
  pose proof (Z.div_mod (p / 2) 8 ltac:(lia)) as H8.
  pose proof (Z.mod_pos_bound (p / 2) 8 ltac:(lia)) as B8.
  pose proof (Z.div_mod p 16 ltac:(lia)) as H16.
  pose proof (Z.mod_pos_bound p 16 ltac:(lia)) as B16.
  pose proof (Z.div_mod (p / 16) 2 ltac:(lia)) as H16'.
  pose proof (Z.mod_pos_bound (p / 16) 2 ltac:(lia)) as B16'.
  pose proof (Z.div_mod p 32 ltac:(lia)) as H32.
  pose proof (Z.mod_pos_bound p 32 ltac:(lia)) as B32.
  pose proof (Z.div_mod (p / 32) 8 ltac:(lia)) as H32'.
  pose proof (Z.mod_pos_bound (p / 32) 8 ltac:(lia)) as B32'.
  assert (Hq : 0 <= p / 32 < 8).
  { split; [apply Z.div_pos; lia | apply Z.div_lt_upper_bound; lia]. }
  lia.
Qed.

(** X12.  With the offsets of the two ports, 0 and 4, the control modes
    are read off the control register and nothing else happens:
    [control1Mode] returns bit 0 (bit 4) of PCR as 0 or 1,
    [control2Mode] returns bits 1 to 3 (5 to 7) as a number from 0 to 7,
    and the world is as before.  The four modes are the whole register:
    a byte PCR is [c1A + 2 c2A + 16 c1B + 32 c2B]. *)
Theorem control_modes_decode_PCR (w : World) :
  is_byte (pcr (via w)) ->
  exists a1 a2 b1 b2,
    control1Mode viaPcrOffsetA w = (Ok a1, w)
    /\ control2Mode viaPcrOffsetA w = (Ok a2, w)
    /\ control1Mode viaPcrOffsetB w = (Ok b1, w)
    /\ control2Mode viaPcrOffsetB w = (Ok b2, w)
    /\ a1 = Z.b2z (Z.testbit (pcr (via w)) 0)
    /\ b1 = Z.b2z (Z.testbit (pcr (via w)) 4)
    /\ (forall i, 0 <= i ->
          Z.testbit a2 i = Z.testbit (pcr (via w)) (i + 1) && (i <? 3))
    /\ (forall i, 0 <= i ->
          Z.testbit b2 i = Z.testbit (pcr (via w)) (i + 5) && (i <? 3))
    /\ 0 <= a2 <= 7 /\ 0 <= b2 <= 7
    /\ pcr (via w) = a1 + 2 * a2 + 16 * b1 + 32 * b2.
Proof.
  intros Hp. unfold is_byte in Hp.
  unfold control1Mode, control2Mode, bind, getVia, ret,
    viaPcrOffsetA, viaPcrOffsetB.
  change (add8 0 1) with 1. change (add8 4 1) with 5.
  do 4 eexists.
  split; [reflexivity |]. split; [reflexivity |].
  split; [reflexivity |]. split; [reflexivity |].
  assert (Hbits : forall k i, 0 <= k -> 0 <= i ->
            Z.testbit (Z.land (Z.shiftr (pcr (via w)) k) 7) i
            = Z.testbit (pcr (via w)) (i + k) && (i <? 3)).
  { intros k i Hk Hi. rewrite Z.land_spec, Z.shiftr_spec by exact Hi.
    f_equal. change 7 with (Z.ones 3).
    destruct (Z.ltb_spec i 3).
    - apply Z.ones_spec_low. lia.
    - apply Z.ones_spec_high. lia. }
  split.
  { rewrite land_1, Z.shiftr_0_r, Z.bit0_mod. reflexivity. }
  split.
  { rewrite land_1, <- Z.bit0_mod, Z.shiftr_spec by lia. reflexivity. }
  split; [intros i Hi; apply Hbits; lia |].
  split; [intros i Hi; apply Hbits; lia |].
  rewrite !land_1, !land_7, !Z.shiftr_div_pow2 by lia.
  change (2 ^ 0) with 1. change (2 ^ 1) with 2. change (2 ^ 4) with 16.
  change (2 ^ 5) with 32. rewrite Z.div_1_r.
  pose proof (Z.mod_pos_bound (pcr (via w) / 2) 8 ltac:(lia)).
  pose proof (Z.mod_pos_bound (pcr (via w) / 32) 8 ltac:(lia)).
  split; [lia |]. split; [lia |].
  apply byte_of_modes. exact Hp.
Qed.

(** *** Diagnostics *)

Lemma hookCalls_stdout_only (l : list event) :
  (forall e, In e l -> exists s, e = Stdout s) -> hookCalls l = [].
Proof.
  induction l as [| e l IH]; intros H; [reflexivity |].
  destruct (H e (or_introl eq_refl)) as (s & ->). cbn [hookCalls].
  apply IH. intros e' He'. apply H. right. exact He'.
Qed.

(** What [printAsciiByte] prints for a byte. *)
Lemma printAsciiByte_text (b : byte) (w : World) :
  printAsciiByte b w
  = (Ok tt,
     mkWorld (via w) (heap w)
             (log w ++ [Stdout (if IsPrint b || IsSpace b then runeString b
                                else substring 1 (String.length (QuoteRuneToASCII b) - 1 - 1)
                                               (QuoteRuneToASCII b))])).
Proof.
  unfold printAsciiByte. destruct (IsPrint b || IsSpace b); reflexivity.
Qed.

Lemma handleDataWrite_prints (data : byte) (ps : list addr) (w : World) :
  exists out,
    handleDataWrite data ps w
    = (Ok tt,
       mkWorld (via w) (written data ps (heap w))
               (log w ++ out ++ map (fun d => Called (fst d) (CWrite (snd d)))
                                    (deliveries data ps (heap w))))
    /\ hookCalls out = []
    /\ stdout out
       = (if DumpBinary (options (via w))
          then [("VIA output: " ++ fmt_08b data ++ " (0x" ++ fmt_02X data ++ ")" ++ nl)%string]
          else [])
         ++ (if DumpAscii (options (via w))
             then [if IsPrint data || IsSpace data then runeString data
                   else substring 1 (String.length (QuoteRuneToASCII data) - 1 - 1)
                                  (QuoteRuneToASCII data)]
             else []).
Proof.
  unfold handleDataWrite.
  unfold bind at 1. unfold getVia at 1.
  destruct (DumpBinary (options (via w))), (DumpAscii (options (via w))).
  - eexists [Stdout _; Stdout _]. split; [| split; reflexivity].
    unfold bind at 1. unfold emit at 1. unfold bind at 1.
    rewrite printAsciiByte_text, fan_out. cbn [via heap log].
    rewrite <- !app_assoc. reflexivity.
  - eexists [Stdout _]. split; [| split; reflexivity].
    unfold bind at 1. unfold emit at 1. unfold bind at 1. unfold ret at 1.
    rewrite fan_out. cbn [via heap log].
    rewrite <- !app_assoc. reflexivity.
  - eexists [Stdout _]. split; [| split; reflexivity].
    unfold bind at 1. unfold ret at 1. unfold bind at 1.
    rewrite printAsciiByte_text, fan_out. cbn [via heap log].
    rewrite <- !app_assoc. reflexivity.
  - exists []. split; [| split; reflexivity].
    unfold bind at 1. unfold ret at 1. unfold bind at 1. unfold ret at 1.
    rewrite fan_out. reflexivity.
Qed.

(** X13.  The diagnostics of a write show the byte that is driven, not
    the byte that is written: with [DumpBinary] the line holds
    [data & DDR] in binary and in hexadecimal, with [DumpAscii] the text
    of [data & DDR] follows, and with neither nothing is printed.  The
    diagnostics come before the first peripheral is written and call no
    peripheral. *)
Theorem diagnostics_show_the_driven_byte (w : World) (data : byte) :
  let v := via w in
  let shown := fun d : byte =>
    (if DumpBinary (options v)
     then [("VIA output: " ++ fmt_08b d ++ " (0x" ++ fmt_02X d ++ ")" ++ nl)%string]
     else [])
    ++ (if DumpAscii (options v)
        then [if IsPrint d || IsSpace d then runeString d
              else substring 1 (String.length (QuoteRuneToASCII d) - 1 - 1)
                             (QuoteRuneToASCII d)]
        else []) in
  (exists diag,
      since w (snd (Write 0x0 data w))
      = diag ++ map (fun d => Called (fst d) (CWrite (snd d)))
                    (deliveries (Z.land data (ddrb v)) (pbPeripherals v) (heap w))
      /\ hookCalls diag = []
      /\ stdout diag = shown (Z.land data (ddrb v))
      /\ stdout (since w (snd (Write 0x0 data w))) = shown (Z.land data (ddrb v)))
  /\ (exists diag,
         since w (snd (Write 0x1 data w))
         = diag ++ map (fun d => Called (fst d) (CWrite (snd d)))
                       (deliveries (Z.land data (ddra v)) (paPeripherals v) (heap w))
         /\ hookCalls diag = []
         /\ stdout diag = shown (Z.land data (ddra v))
         /\ stdout (since w (snd (Write 0x1 data w))) = shown (Z.land data (ddra v)))
  /\ (DumpBinary (options v) = false -> DumpAscii (options v) = false ->
      stdout (since w (snd (Write 0x0 data w))) = []
      /\ stdout (since w (snd (Write 0x1 data w))) = []).
Proof.
  cbv zeta.
  assert (HB : exists diag,
             since w (snd (Write 0x0 data w))
             = diag ++ map (fun d => Called (fst d) (CWrite (snd d)))
                           (deliveries (Z.land data (ddrb (via w))) (pbPeripherals (via w)) (heap w))
             /\ hookCalls diag = []
             /\ stdout diag
                = (if DumpBinary (options (via w))
                   then [("VIA output: " ++ fmt_08b (Z.land data (ddrb (via w)))
                          ++ " (0x" ++ fmt_02X (Z.land data (ddrb (via w))) ++ ")" ++ nl)%string]
                   else [])
                  ++ (if DumpAscii (options (via w))
                      then [if IsPrint (Z.land data (ddrb (via w))) || IsSpace (Z.land data (ddrb (via w)))
                            then runeString (Z.land data (ddrb (via w)))
                            else substring 1 (String.length (QuoteRuneToASCII (Z.land data (ddrb (via w)))) - 1 - 1)
                                           (QuoteRuneToASCII (Z.land data (ddrb (via w))))]
                      else [])).
  { unfold Write. cbv beta iota delta [Z.eqb Pos.eqb].
    unfold bind at 1. unfold modVia at 1. unfold bind at 1. unfold getVia at 1.
    cbn [via heap log ddrb pbPeripherals set_orb].
    match goal with
    | |- context [handleDataWrite ?d ?ps ?w1] =>
        destruct (handleDataWrite_prints d ps w1) as (out & Heq & Hout & Htext)
    end.
    rewrite Heq. cbn [snd via heap log options set_orb] in *.
    exists out. split; [apply since_app; reflexivity |].
    split; [exact Hout | exact Htext]. }
  assert (HA : exists diag,
             since w (snd (Write 0x1 data w))
             = diag ++ map (fun d => Called (fst d) (CWrite (snd d)))
                           (deliveries (Z.land data (ddra (via w))) (paPeripherals (via w)) (heap w))
             /\ hookCalls diag = []
             /\ stdout diag
                = (if DumpBinary (options (via w))
                   then [("VIA output: " ++ fmt_08b (Z.land data (ddra (via w)))
                          ++ " (0x" ++ fmt_02X (Z.land data (ddra (via w))) ++ ")" ++ nl)%string]
                   else [])
                  ++ (if DumpAscii (options (via w))
                      then [if IsPrint (Z.land data (ddra (via w))) || IsSpace (Z.land data (ddra (via w)))
                            then runeString (Z.land data (ddra (via w)))
                            else substring 1 (String.length (QuoteRuneToASCII (Z.land data (ddra (via w)))) - 1 - 1)
                                           (QuoteRuneToASCII (Z.land data (ddra (via w))))]
                      else [])).
  { unfold Write. cbv beta iota delta [Z.eqb Pos.eqb].
    unfold bind at 1. unfold modVia at 1. unfold bind at 1. unfold getVia at 1.
    cbn [via heap log ddra paPeripherals set_ora].
    match goal with
    | |- context [handleDataWrite ?d ?ps ?w1] =>
        destruct (handleDataWrite_prints d ps w1) as (out & Heq & Hout & Htext)
    end.
    rewrite Heq. cbn [snd via heap log options set_ora] in *.
    exists out. split; [apply since_app; reflexivity |].
    split; [exact Hout | exact Htext]. }
  destruct HB as (dB & HsB & HhB & HtB).
  destruct HA as (dA & HsA & HhA & HtA).
  assert (HoutB : stdout (since w (snd (Write 0x0 data w))) = stdout dB)
    by (rewrite HsB, stdout_app, stdout_writes, app_nil_r; reflexivity).
  assert (HoutA : stdout (since w (snd (Write 0x1 data w))) = stdout dA)
    by (rewrite HsA, stdout_app, stdout_writes, app_nil_r; reflexivity).
  split; [exists dB; repeat split; try assumption; rewrite HoutB; exact HtB |].
  split; [exists dA; repeat split; try assumption; rewrite HoutA; exact HtA |].
  intros Hb Ha. rewrite HoutB, HoutA, HtB, HtA, Hb, Ha. split; reflexivity.
Qed.

Lemma substring_prefix (body rest : string) :
  substring 0 (String.length body) (body ++ rest)%string = body.
Proof.
  induction body as [| c body IH]; cbn [String.length append substring].
  - destruct rest; reflexivity.
  - rewrite IH. reflexivity.
Qed.

Lemma length_snoc (body : string) (c : ascii) :
  String.length (body ++ String.String c EmptyString)%string = S (String.length body).
Proof.
  induction body as [| c' body IH]; cbn [String.length append]; [reflexivity |].
  rewrite IH. reflexivity.
Qed.

(** X14.  [printAsciiByte] prints a byte that is printable or a blank as
    the rune itself, and any other byte as its quoted form without the
    two quote marks; it prints one piece of text, returns, and touches
    neither the VIA nor a peripheral. *)
Theorem printAsciiByte_strips_the_quotes (w : World) (b : byte) :
  (IsPrint b || IsSpace b = true ->
   printAsciiByte b w
   = (Ok tt, mkWorld (via w) (heap w) (log w ++ [Stdout (runeString b)])))
  /\ (forall (q q' : ascii) (body : string),
        IsPrint b || IsSpace b = false ->
        QuoteRuneToASCII b
        = String.String q (body ++ String.String q' EmptyString)%string ->
        printAsciiByte b w
        = (Ok tt, mkWorld (via w) (heap w) (log w ++ [Stdout body]))).
Proof.
  split.
  - intros H. rewrite printAsciiByte_text, H. reflexivity.
  - intros q q' body H Hq. rewrite printAsciiByte_text, H, Hq.
    cbn [String.length substring]. rewrite length_snoc.
    cbn [Nat.sub]. rewrite Nat.sub_0_r, substring_prefix. reflexivity.
Qed.

(** *** A new VIA, repeated reads, direction set late *)

(** X17.  [NewVia6522] builds a VIA in the state [Reset] leaves, with
    nothing attached: [Reset] changes nothing in it, [Shutdown] returns
    without a call or a line, every handled register reads zero, and a
    write to a port is stored and reaches nobody. *)
Theorem new_VIA_is_reset_and_empty (o : Options) (h : @Heap P) (l : list event)
        (data : byte) :
  let w := mkWorld (NewVia6522 o) h l in
  Reset w = (Ok tt, w)
  /\ Shutdown w = (Ok tt, w)
  /\ fst (Read 0x0 w) = Ok 0 /\ fst (Read 0x1 w) = Ok 0
  /\ fst (Read 0x2 w) = Ok 0 /\ fst (Read 0x3 w) = Ok 0 /\ fst (Read 0xC w) = Ok 0
  /\ hookCalls (since w (snd (Write 0x0 data w))) = []
  /\ hookCalls (since w (snd (Write 0x1 data w))) = []
  /\ orb (via (snd (Write 0x0 data w))) = data
  /\ fst ((Write 0x0 data ;;; Read 0x0) w) = Ok 0.
Proof.
  cbv zeta.
  split; [reflexivity |]. split; [reflexivity |].
  split; [reflexivity |]. split; [reflexivity |].
  split; [reflexivity |]. split; [reflexivity |]. split; [reflexivity |].
  split; [rewrite Write_portB_calls; reflexivity |].
  split; [rewrite Write_portA_calls; reflexivity |].
  destruct (Write_portB data (mkWorld (NewVia6522 o) h l)) as (out & Heq & _).
  split; [rewrite Heq; reflexivity |].
  unfold bind. rewrite Heq, Read_portB_full.
  cbn [fst via heap pbPeripherals orb ddrb set_orb NewVia6522 contributions orAll fold_right].
  rewrite readMixedInputOutput_no_input, Z.land_0_r. reflexivity.
Qed.

Lemma polled_agree (ps : list addr) (h1 h2 : @Heap P) :
  (forall q, h1 q = h2 q) -> forall q, polled ps h1 q = polled ps h2 q.
Proof.
  revert h1 h2. induction ps as [| p ps IH]; intros h1 h2 H q; [apply H |].
  cbn [polled]. rewrite (H p).
  destruct (ParallelPeripheral.Read (h2 p)) as [r s'].
  apply IH. intros x. unfold upd. destruct (Nat.eqb x p); [reflexivity | apply H].
Qed.

Lemma polled_idle (ps : list addr) (h : @Heap P) :
  (forall p, In p ps -> snd (ParallelPeripheral.Read (h p)) = h p) ->
  forall q, polled ps h q = h q.
Proof.
  revert h. induction ps as [| p ps IH]; intros h H q; [reflexivity |].
  cbn [polled].
  pose proof (H p (or_introl eq_refl)) as Hp.
  destruct (ParallelPeripheral.Read (h p)) as [r s']. cbn [snd] in Hp. subst s'.
  rewrite (polled_agree ps (upd h p (h p)) h).
  - apply IH. intros x Hx. apply H. right. exact Hx.
  - intros x. unfold upd. destruct (Nat.eqb_spec x p) as [-> | _]; reflexivity.
Qed.

(** X18.  Reads of a port can be repeated: when [Read] leaves the state
    of each peripheral of the port as it is, a second read of the port
    returns the byte the first returned and leaves the same VIA. *)
Theorem Read_can_be_repeated (w : World) :
  let v := via w in
  ((forall p, In p (pbPeripherals v) ->
      snd (ParallelPeripheral.Read (heap w p)) = heap w p) ->
   fst (Read 0x0 (snd (Read 0x0 w))) = fst (Read 0x0 w)
   /\ via (snd (Read 0x0 (snd (Read 0x0 w)))) = via (snd (Read 0x0 w)))
  /\ ((forall p, In p (paPeripherals v) ->
         snd (ParallelPeripheral.Read (heap w p)) = heap w p) ->
      fst (Read 0x1 (snd (Read 0x1 w))) = fst (Read 0x1 w)
      /\ via (snd (Read 0x1 (snd (Read 0x1 w)))) = via (snd (Read 0x1 w))).
Proof.
  cbv zeta. split; intros Hidle.
  - rewrite (Read_portB_full w), Read_portB_full.
    cbn [fst snd via heap pbPeripherals orb ddrb irb set_irb].
    rewrite (contributions_agree (pbPeripherals (via w))
               (polled (pbPeripherals (via w)) (heap w)) (heap w))
      by (intros q _; apply polled_idle; exact Hidle).
    split; reflexivity.
  - rewrite (Read_portA_full w), Read_portA_full.
    cbn [fst snd via heap paPeripherals ora ddra ira set_ira].
    rewrite (contributions_agree (paPeripherals (via w))
               (polled (paPeripherals (via w)) (heap w)) (heap w))
      by (intros q _; apply polled_idle; exact Hidle).
    split; reflexivity.
Qed.

(** X19.  The direction may be set after the data: the output register
    keeps the byte written while the pins were inputs, so after a write
    of [o] to the output register and then of [d] to the direction
    register of the same port, a read of the port shows bit [n] of [o] on
    every pin [n] that [d] marks as output.  The write of [d] itself
    calls no peripheral: the pins that became outputs are not driven
    until the next write to the output register. *)
Theorem direction_may_follow_the_data (w : World) (o d : byte) (n : Z) :
  0 <= n < 8 -> Z.testbit d n = true ->
  (exists r,
      fst ((Write 0x0 o ;;; Write 0x2 d ;;; Read 0x0) w) = Ok r
      /\ Z.testbit r n = Z.testbit o n)
  /\ (exists r,
         fst ((Write 0x1 o ;;; Write 0x3 d ;;; Read 0x1) w) = Ok r
         /\ Z.testbit r n = Z.testbit o n)
  /\ hookCalls (since w (snd (Write 0x2 d w))) = []
  /\ hookCalls (since w (snd (Write 0x3 d w))) = [].
Proof.
  intros Hn Hd.
  split; [| split; [| split; rewrite since_same by reflexivity; reflexivity]].
  - unfold bind at 1. destruct (Write_portB o w) as (out & HW & _). rewrite HW.
    unfold bind at 1.
    match goal with
    | |- context [Write 0x2 d ?w0] =>
        change (Write 0x2 d w0)
          with (Ok tt, mkWorld (set_ddrb d (via w0)) (heap w0) (log w0))
    end.
    cbv iota. rewrite Read_portB_full.
    cbn [fst via heap pbPeripherals orb ddrb set_orb set_ddrb].
    eexists. split; [reflexivity |].
    rewrite readMixedInputOutput_low_bits by exact Hn. rewrite Hd. reflexivity.
  - unfold bind at 1. destruct (Write_portA o w) as (out & HW & _). rewrite HW.
    unfold bind at 1.
    match goal with
    | |- context [Write 0x3 d ?w0] =>
        change (Write 0x3 d w0)
          with (Ok tt, mkWorld (set_ddra d (via w0)) (heap w0) (log w0))
    end.
    cbv iota. rewrite Read_portA_full.
    cbn [fst via heap paPeripherals ora ddra set_ora set_ddra].
    eexists. split; [reflexivity |].
    rewrite readMixedInputOutput_low_bits by exact Hn. rewrite Hd. reflexivity.
Qed.

End WithPeripherals.

(** *** On the bench *)

Lemma register_keeps_what_is_written_witness :
  (0x2 = 0x2 \/ 0x2 = 0x3 \/ 0x2 = 0xC)
  /\ fst ((Write 0x2 0x0F ;;; Read 0x2) bareBench) = Ok 0x0F.
Proof.
  assert (Ha : 0x2 = 0x2 \/ 0x2 = 0x3 \/ 0x2 = 0xC) by (left; reflexivity).
  split; [exact Ha |].
  exact (proj1 (register_keeps_what_is_written bareBench 0x2 0x0F Ha)).
Defined.

(** The low four pins of port B are outputs; [0xA6] is written; pin 2
    reads back as written although the probes drive [0x35] and [0xCA]. *)
Lemma output_pins_read_back_witness :
  0 <= 2 < 8
  /\ Z.testbit (ddrb (via halfBench)) 2 = true
  /\ exists r,
       fst ((Write 0x0 0xA6 ;;; Read 0x0) halfBench) = Ok r
       /\ Z.testbit r 2 = Z.testbit 0xA6 2.
Proof.
  assert (Hn : 0 <= 2 < 8) by lia.
  split; [exact Hn |]. split; [reflexivity |].
  destruct (output_pins_read_back halfBench 0xA6 2 Hn) as [(r & Hr & Hout & _) _].
  exists r. split; [exact Hr | exact (Hout eq_refl)].
Defined.

Lemma Read_polls_its_port_witness :
  ~ In 5%nat (pbPeripherals (via sharedBench))
  /\ heap (snd (Read 0x0 sharedBench)) 5%nat = heap sharedBench 5%nat.
Proof.
  assert (Hq : ~ In 5%nat (pbPeripherals (via sharedBench))).
  { cbn. intros [H | [H | []]]; discriminate H. }
  split; [exact Hq |].
  destruct (Read_polls_its_port sharedBench) as [(_ & _ & _ & H) _].
  exact (H 5%nat Hq).
Defined.

Lemma distinct_0_1 : NoDup [0%nat; 1%nat].
Proof.
  constructor.
  - intros [H | []]. discriminate H.
  - constructor; [intros [] | constructor].
Defined.

Lemma pin_is_driven_by_the_wired_witness :
  NoDup (pbPeripherals (via sharedBench))
  /\ Z.testbit (irb (via (snd (Read 0x0 sharedBench)))) 6
     = existsb (drives (heap sharedBench) 6) (pbPeripherals (via sharedBench)).
Proof.
  split; [exact distinct_0_1 |].
  destruct (pin_is_driven_by_the_wired sharedBench 6) as [H _].
  exact (proj1 (H distinct_0_1)).
Defined.

Lemma Write_drives_output_pins_only_witness :
  In (0%nat, CWrite 0x0F)
     (hookCalls (since lowNibbleBench (snd (Write 0x0 0xFF lowNibbleBench))))
  /\ Z.testbit 0x0F 3 = true
  /\ Z.testbit 0xFF 3 = true
  /\ Z.testbit (ddrb (via lowNibbleBench)) 3 = true.
Proof.
  assert (Hin : In (0%nat, CWrite 0x0F)
                   (hookCalls (since lowNibbleBench (snd (Write 0x0 0xFF lowNibbleBench)))))
    by (left; reflexivity).
  assert (Hbit : Z.testbit 0x0F 3 = true) by reflexivity.
  split; [exact Hin |]. split; [exact Hbit |].
  destruct (Write_drives_output_pins_only lowNibbleBench 0xFF 0%nat 0x0F 3) as [H _].
  destruct (H Hin Hbit) as (Hd & Hddr & _).
  split; [exact Hd | exact Hddr].
Defined.

Lemma Write_keeps_to_its_port_witness :
  ~ In 0%nat (pbPeripherals (via soundBench))
  /\ heap (snd (Write 0x0 0xFF soundBench)) 0%nat = heap soundBench 0%nat.
Proof.
  assert (Hq : ~ In 0%nat (pbPeripherals (via soundBench))).
  { cbn. intros [H | []]. discriminate H. }
  split; [exact Hq |].
  destruct (Write_keeps_to_its_port soundBench 0xFF) as [(_ & H) _].
  exact (proj1 (H 0%nat Hq)).
Defined.

Lemma Shutdown_shuts_each_down_once_witness :
  NoDup (paPeripherals (via soundBench) ++ pbPeripherals (via soundBench))
  /\ Forall (fun p => fst (ParallelPeripheral.Shutdown (heap soundBench p)) = Returns)
            (paPeripherals (via soundBench) ++ pbPeripherals (via soundBench))
  /\ In 1%nat (paPeripherals (via soundBench) ++ pbPeripherals (via soundBench))
  /\ probeDown (heap (snd (Shutdown soundBench)) 1%nat) = true.
Proof.
  assert (Hall : Forall (fun p => fst (ParallelPeripheral.Shutdown (heap soundBench p)) = Returns)
                        (paPeripherals (via soundBench) ++ pbPeripherals (via soundBench))).
  { cbn. constructor; [reflexivity |]. constructor; [reflexivity | constructor]. }
  assert (Hin : In 1%nat (paPeripherals (via soundBench) ++ pbPeripherals (via soundBench)))
    by (right; left; reflexivity).
  split; [exact distinct_0_1 |]. split; [exact Hall |]. split; [exact Hin |].
  destruct (Shutdown_shuts_each_down_once soundBench) as [_ H].
  rewrite (H distinct_0_1 Hall 1%nat Hin). reflexivity.
Defined.

Lemma control_modes_decode_PCR_witness :
  is_byte (pcr (via pcrBench))
  /\ control1Mode viaPcrOffsetA pcrBench = (Ok 1, pcrBench)
  /\ control2Mode viaPcrOffsetA pcrBench = (Ok 2, pcrBench)
  /\ control1Mode viaPcrOffsetB pcrBench = (Ok 1, pcrBench)
  /\ control2Mode viaPcrOffsetB pcrBench = (Ok 5, pcrBench)
  /\ exists a1 a2 b1 b2, pcr (via pcrBench) = a1 + 2 * a2 + 16 * b1 + 32 * b2.
Proof.
  assert (Hp : is_byte (pcr (via pcrBench))) by (unfold is_byte; cbn; lia).
  split; [exact Hp |].
  split; [reflexivity |]. split; [reflexivity |].
  split; [reflexivity |]. split; [reflexivity |].
  destruct (control_modes_decode_PCR pcrBench Hp)
    as (a1 & a2 & b1 & b2 & _ & _ & _ & _ & _ & _ & _ & _ & _ & _ & H).
  exists a1, a2, b1, b2. exact H.
Defined.

Lemma diagnostics_show_the_driven_byte_witness :
  DumpBinary (options (via bareBench)) = false
  /\ DumpAscii (options (via bareBench)) = false
  /\ stdout (since bareBench (snd (Write 0x0 0x41 bareBench))) = [].
Proof.
  split; [reflexivity |]. split; [reflexivity |].
  destruct (diagnostics_show_the_driven_byte bareBench 0x41) as (_ & _ & H).
  exact (proj1 (H eq_refl eq_refl)).
Defined.

(** The bell is neither printable nor a blank: it is printed as [\a], its
    quoted form without the quote marks, and DEL as [\x7f]; the letter
    e with an acute accent is printable and is printed as the two bytes of
    its UTF-8 encoding. *)
Lemma printAsciiByte_strips_the_quotes_witness :
  IsPrint 0x07 || IsSpace 0x07 = false
  /\ QuoteRuneToASCII 0x07
     = String.String "'" ("\a" ++ String.String "'" EmptyString)%string
  /\ printAsciiByte 0x07 bareBench
     = (Ok tt, mkWorld (via bareBench) (heap bareBench) (log bareBench ++ [Stdout "\a"]))
  /\ IsPrint 0x7F || IsSpace 0x7F = false
  /\ QuoteRuneToASCII 0x7F
     = String.String "'" ("\x7f" ++ String.String "'" EmptyString)%string
  /\ printAsciiByte 0x7F bareBench
     = (Ok tt, mkWorld (via bareBench) (heap bareBench) (log bareBench ++ [Stdout "\x7f"]))
  /\ IsPrint 0xE9 || IsSpace 0xE9 = true
  /\ printAsciiByte 0xE9 bareBench
     = (Ok tt, mkWorld (via bareBench) (heap bareBench)
                       (log bareBench
                        ++ [Stdout (String.String "195" (String.String "169" EmptyString))])).
Proof.
  split; [reflexivity |]. split; [reflexivity |].
  split.
  { destruct (printAsciiByte_strips_the_quotes bareBench 0x07) as [_ H].
    exact (H "'"%char "'"%char "\a"%string eq_refl eq_refl). }
  split; [reflexivity |]. split; [reflexivity |].
  split.
  { destruct (printAsciiByte_strips_the_quotes bareBench 0x7F) as [_ H].
    exact (H "'"%char "'"%char "\x7f"%string eq_refl eq_refl). }
  split; [reflexivity |].
  destruct (printAsciiByte_strips_the_quotes bareBench 0xE9) as [H _].
  exact (H eq_refl).
Defined.

Lemma Read_can_be_repeated_witness :
  (forall p, In p (pbPeripherals (via sharedBench)) ->
     snd (ParallelPeripheral.Read (heap sharedBench p)) = heap sharedBench p)
  /\ fst (Read 0x0 (snd (Read 0x0 sharedBench))) = Ok 0xC5.
Proof.
  assert (Hidle : forall p, In p (pbPeripherals (via sharedBench)) ->
                    snd (ParallelPeripheral.Read (heap sharedBench p)) = heap sharedBench p)
    by (intros p _; reflexivity).
  split; [exact Hidle |].
  destruct (Read_can_be_repeated sharedBench) as [H _].
  rewrite (proj1 (H Hidle)). reflexivity.
Defined.

(** [0xA6] is written to port B while its high pins are inputs; then the
    high pins are made outputs: pin 7 reads as written. *)
Lemma direction_may_follow_the_data_witness :
  0 <= 7 < 8
  /\ Z.testbit 0xF0 7 = true
  /\ exists r,
       fst ((Write 0x0 0xA6 ;;; Write 0x2 0xF0 ;;; Read 0x0) halfBench) = Ok r
       /\ Z.testbit r 7 = Z.testbit 0xA6 7.
Proof.
  assert (Hn : 0 <= 7 < 8) by lia.
  assert (Hd : Z.testbit 0xF0 7 = true) by reflexivity.
  split; [exact Hn |]. split; [exact Hd |].
  exact (proj1 (direction_may_follow_the_data halfBench 0xA6 0xF0 7 Hn Hd)).
Defined.

End ViaExtra.

(** * More of the supervisor *)

Module MainExtra.

Import Via6522 Main.

Section WithPeripherals.

Context {P : Type} {PP : ParallelPeripheral.t P}.

Local Abbreviation World := (@World P).

Lemma externCalls_app (l1 l2 : list event) :
  externCalls (l1 ++ l2) = externCalls l1 ++ externCalls l2.
Proof.
  induction l1 as [| e l1 IH]; cbn [app externCalls]; [reflexivity |].
  destruct e as [s | p c | c]; try exact IH. cbn [app]. rewrite IH. reflexivity.
Qed.

(** X15.  A ROM image that cannot be loaded is fatal at once:
    [mainReturningStatus] panics with the error of [RomFromFile] after
    the options were parsed and the image was asked for, and before
    anything is built: the VIA and the peripherals are as they were, no
    display is created, nothing is deferred or closed, nothing is
    printed, and [main] does not reach [os.Exit]. *)
Theorem rom_failure_is_fatal (e : @Env P) (w : World) (err : string) :
  romError e = Some err ->
  let stopped :=
    mkWorld (via w) (heap w)
            (log w ++ [Extern ParseOptions; Extern (RomFromFile kernalPath)]) in
  mainReturningStatus e w = (Panic err, stopped)
  /\ main e w = (Panic err, stopped)
  /\ externCalls (since w (snd (main e w))) = [ParseOptions; RomFromFile kernalPath]
  /\ hookCalls (since w (snd (main e w))) = []
  /\ stdout (since w (snd (main e w))) = [].
Proof.
  intros Hrom. cbv zeta.
  pose proof (MainFacts.run_without_rom e w err Hrom) as Hrun.
  assert (Hmain : main e w
                  = (Panic err,
                     mkWorld (via w) (heap w)
                             (log w ++ [Extern ParseOptions; Extern (RomFromFile kernalPath)]))).
  { unfold main, bind. rewrite Hrun. reflexivity. }
  split; [exact Hrun |]. split; [exact Hmain |].
  rewrite Hmain. cbn [snd].
  erewrite ViaFacts.since_app by reflexivity.
  repeat split.
Qed.

(** X16.  Of what the supervisor itself does, in a run whose ROM image
    loads: [main] reaches [os.Exit], once, as its last act and with the
    status of the race.  Right before it run the deferred calls, in the
    reverse order of their [defer], the debugger closed before the
    display; until then nothing is closed and the process is not left.
    The calls to the collaborators are, in order, those of the startup,
    the two post-mortem calls when the status is not zero, the closing of
    the debugger when there is one, and [os.Exit]. *)
Theorem run_ends_in_exit_after_teardown (e : @Env P) (v0 : Via6522) (h0 : @Heap P) :
  romError e = None ->
  let run := main e (mkWorld v0 h0 []) in
  let l := log (snd run) in
  fst run = Ok tt
  /\ l = startup e ++ race e ++ (if status e =? 0 then [] else postMortem e)
         ++ teardown e ++ [Extern (OsExit (status e))]
  /\ teardown e
     = (if Debug (parsed e) then [Extern DebuggerClose] else [])
       ++ (if ViaSsd1306 (parsed e) then [Called (ssd1306 e) CClose] else [])
  /\ (exists before,
        l = before ++ teardown e ++ [Extern (OsExit (status e))]
        /\ closeCalls before = []
        /\ ~ In (Extern DebuggerClose) before
        /\ (forall c, ~ In (Extern (OsExit c)) before))
  /\ (forall c, In (Extern (OsExit c)) l -> c = status e)
  /\ closeCalls l = (if ViaSsd1306 (parsed e) then [ssd1306 e] else [])
  /\ externCalls l
     = externCalls (startup e)
       ++ (if status e =? 0 then [] else [CpuString; RamDump "core"])
       ++ (if Debug (parsed e) then [DebuggerClose] else [])
       ++ [OsExit (status e)].
Proof.
  intros Hrom. cbv zeta.
  destruct (MainFacts.run_of_main e v0 h0 Hrom) as (Hst & _ & Hlog).
  unfold main, bind.
  destruct (mainReturningStatus e (mkWorld v0 h0 [])) as [r w1].
  cbn [fst snd] in *. subst r. cbn [fst snd via heap log emit].
  assert (Hl : log w1 ++ [Extern (OsExit (status e))]
               = (startup e ++ race e ++ (if status e =? 0 then [] else postMortem e))
                 ++ teardown e ++ [Extern (OsExit (status e))]).
  { rewrite Hlog, <- !app_assoc. reflexivity. }
  assert (Hbefore : closeCalls (startup e ++ race e
                                ++ (if status e =? 0 then [] else postMortem e)) = []
                    /\ ~ In (Extern DebuggerClose)
                           (startup e ++ race e
                            ++ (if status e =? 0 then [] else postMortem e))
                    /\ (forall c, ~ In (Extern (OsExit c))
                                     (startup e ++ race e
                                      ++ (if status e =? 0 then [] else postMortem e)))).
  { unfold startup, race, postMortem.
    destruct (ViaSsd1306 (parsed e)), (Debug (parsed e)), (fires e), (status e =? 0);
      (split; [reflexivity |]);
      (split; [| intros c]); cbn; intros H;
      repeat (destruct H as [H | H]; [discriminate H |]); exact H. }
  split; [reflexivity |].
  split; [rewrite Hl, <- !app_assoc; reflexivity |].
  split; [reflexivity |].
  split.
  { exists (startup e ++ race e ++ (if status e =? 0 then [] else postMortem e)).
    split; [exact Hl | exact Hbefore]. }
  split.
  { intros c Hin. rewrite Hl in Hin.
    apply in_app_or in Hin. destruct Hin as [Hin | Hin].
    - destruct Hbefore as (_ & _ & Hno). destruct (Hno c Hin).
    - apply in_app_or in Hin. destruct Hin as [Hin | Hin].
      + unfold teardown in Hin.
        destruct (Debug (parsed e)), (ViaSsd1306 (parsed e)); cbn in Hin;
          repeat (destruct Hin as [Hin | Hin]; [discriminate Hin |]); destruct Hin.
      + destruct Hin as [Hin | []]. injection Hin as <-. reflexivity. }
  split.
  { destruct Hbefore as (Hnone & _).
    rewrite Hl, closeCalls_app, Hnone, closeCalls_app. unfold teardown.
    destruct (Debug (parsed e)), (ViaSsd1306 (parsed e)); reflexivity. }
  rewrite Hl, <- !app_assoc, !externCalls_app.
  unfold race, postMortem, teardown.
  destruct (ViaSsd1306 (parsed e)), (Debug (parsed e)), (fires e), (status e =? 0);
    reflexivity.
Qed.

End WithPeripherals.

Lemma rom_failure_is_fatal_witness :
  romError brokenRun = Some "open rom/kernal.rom: no such file or directory"%string
  /\ fst (main brokenRun bareBench)
     = Panic "open rom/kernal.rom: no such file or directory".
Proof.
  split; [reflexivity |].
  destruct (rom_failure_is_fatal brokenRun bareBench
              "open rom/kernal.rom: no such file or directory" eq_refl)
    as (_ & H & _).
  rewrite H. reflexivity.
Defined.

(** A run with a display and a debugger, interrupted: the debugger is
    closed, then the display, then the process is left with status 1. *)
Lemma run_ends_in_exit_after_teardown_witness :
  romError interruptedRun = None
  /\ fst (main interruptedRun (mkWorld (via bareBench) (heap bareBench) [])) = Ok tt
  /\ exists before,
       log (snd (main interruptedRun (mkWorld (via bareBench) (heap bareBench) [])))
       = before ++ [Extern DebuggerClose; Called 7%nat CClose; Extern (OsExit 1)]
       /\ closeCalls before = []
       /\ ~ In (Extern DebuggerClose) before.
Proof.
  split; [reflexivity |].
  destruct (run_ends_in_exit_after_teardown interruptedRun (via bareBench) (heap bareBench)
              eq_refl) as (Hret & _ & _ & (before & Hl & Hnone & Hdbg & _) & _).
  split; [exact Hret |].
  exists before. split; [exact Hl |]. split; [exact Hnone | exact Hdbg].
Defined.

End MainExtra.
